(** * dblp.py: title normalisation, edit distance and title search

    A shallow embedding of the matching core of [dblp.py] (Python 2):
    [_u8], [_un], [_remove_accents], [_levenshtein],
    [DBLPResult.search_by_title] and [DBLPSearch._is_target].

    Python values are embedded as follows.
    - [str] (a byte string) is [string]; a literal of this file holds the
      UTF-8 bytes of its text, as a Python 2 literal of a UTF-8 source does.
    - [unicode] is [list Z], the list of code points.
    - [int] is [Z]; [float] is [spec_float] at binary64, with the
      operations of the standard library's executable IEEE 754 model;
      a division by zero raises, as in Python.
    - the [dict] of [_levenshtein] is a [gmap (Z * Z) Z].
    - a computation that may raise is a [result]. *)

From Stdlib Require Import ZArith String Ascii Lia.
From Stdlib Require Import Floats.SpecFloat.
From stdpp Require Import base option list gmap.

Open Scope Z_scope.

(** ** Exceptions *)

Inductive exn : Type :=
| UnicodeDecodeError
| ZeroDivisionError
| OverflowError
| KeyError
| IndexError.

Inductive result (A : Type) : Type :=
| Ok (a : A)
| Raise (e : exn).
Arguments Ok {A} a.
Arguments Raise {A} e.

#[global] Instance result_ret : MRet result := fun A a => Ok a.
#[global] Instance result_bind : MBind result := fun A B f m =>
  match m with
  | Ok a => f a
  | Raise e => Raise e
  end.
#[global] Instance result_fmap : FMap result := fun A B f m =>
  match m with
  | Ok a => Ok (f a)
  | Raise e => Raise e
  end.

(** ** Byte strings and Unicode strings *)

Module Text.

(** The bytes of a [str], as integers in [0, 255]. *)
Definition bytes_of (s : string) : list Z :=
  map (fun c => Z.of_N (N_of_ascii c)) (list_ascii_of_string s).

Definition str_of (bs : list Z) : string :=
  string_of_list_ascii (map (fun b => ascii_of_N (Z.to_N b)) bs).

(** The code points of an ASCII literal. *)
Definition codes (s : string) : list Z := bytes_of s.

(** [str.lower()] on a byte string (C locale): only the bytes of
    [A-Z] change. *)
Definition lower_byte (b : Z) : Z :=
  if (65 <=? b) && (b <=? 90) then b + 32 else b.

Definition lower (s : string) : string :=
  str_of (map lower_byte (bytes_of s)).

Definition is_cont (b : Z) : bool := (0x80 <=? b) && (b <=? 0xBF).

(** [bytes.decode('utf-8')], strict: one to four bytes per code point,
    no overlong form, nothing above U+10FFFF; as in Python 2, an encoded
    surrogate is accepted. *)
Fixpoint utf8_decode (bs : list Z) : result (list Z) :=
  match bs with
  | [] => Ok []
  | b0 :: r0 =>
      if b0 <? 0x80 then cons b0 <$> utf8_decode r0
      else if (0xC2 <=? b0) && (b0 <=? 0xDF) then
        match r0 with
        | b1 :: r1 =>
            if is_cont b1
            then cons ((b0 - 0xC0) * 64 + (b1 - 0x80)) <$> utf8_decode r1
            else Raise UnicodeDecodeError
        | _ => Raise UnicodeDecodeError
        end
      else if (0xE0 <=? b0) && (b0 <=? 0xEF) then
        match r0 with
        | b1 :: b2 :: r2 =>
            if is_cont b1 && is_cont b2 && negb ((b0 =? 0xE0) && (b1 <? 0xA0))
            then cons ((b0 - 0xE0) * 4096 + (b1 - 0x80) * 64 + (b2 - 0x80))
                   <$> utf8_decode r2
            else Raise UnicodeDecodeError
        | _ => Raise UnicodeDecodeError
        end
      else if (0xF0 <=? b0) && (b0 <=? 0xF4) then
        match r0 with
        | b1 :: b2 :: b3 :: r3 =>
            if is_cont b1 && is_cont b2 && is_cont b3
               && negb ((b0 =? 0xF0) && (b1 <? 0x90))
               && negb ((b0 =? 0xF4) && (0x8F <? b1))
            then cons ((b0 - 0xF0) * 262144 + (b1 - 0x80) * 4096
                       + (b2 - 0x80) * 64 + (b3 - 0x80))
                   <$> utf8_decode r3
            else Raise UnicodeDecodeError
        | _ => Raise UnicodeDecodeError
        end
      else Raise UnicodeDecodeError
  end.

(** [unicode.encode('utf-8')] of one code point. *)
Definition utf8_encode1 (c : Z) : list Z :=
  if c <? 0x80 then [c]
  else if c <? 0x800 then [0xC0 + c / 64; 0x80 + c mod 64]
  else if c <? 0x10000 then
    [0xE0 + c / 4096; 0x80 + (c / 64) mod 64; 0x80 + c mod 64]
  else
    [0xF0 + c / 262144; 0x80 + (c / 4096) mod 64;
     0x80 + (c / 64) mod 64; 0x80 + c mod 64].

(** [string.ascii_letters] *)
Definition ascii_letters : list Z :=
  codes "abcdefghijklmnopqrstuvwxyzABCDEFGHIJKLMNOPQRSTUVWXYZ".

Definition is_lower_letter (c : Z) : bool := (97 <=? c) && (c <=? 122).
Definition is_upper_letter (c : Z) : bool := (65 <=? c) && (c <=? 90).
Definition is_ascii (c : Z) : bool := (0 <=? c) && (c <? 128).

End Text.
Import Text.

(** ** Compatibility decomposition

    [unicodedata.normalize('NFKD', _)] belongs to the Python library, not to
    [dblp.py]: the functions below take it as the parameter [nfkd].
    [nfkd_latin1] is that function on text over U+0000..U+00FF: each code
    point is replaced by its full decomposition from the Unicode character
    database (a code point outside the table is left as it is).  On such
    text every decomposition is a starter followed by at most one combining
    mark, so the canonical reordering step of NFKD changes nothing. *)

Module Unicode.

Definition grave := 0x300.
Definition acute := 0x301.
Definition circumflex := 0x302.
Definition tilde := 0x303.
Definition macron := 0x304.
Definition diaeresis := 0x308.
Definition ring := 0x30A.
Definition cedilla := 0x327.

Definition decomposition (c : Z) : list Z :=
  if c =? 0xA0 then [0x20]
  else if c =? 0xA8 then [0x20; diaeresis]
  else if c =? 0xAA then [0x61]
  else if c =? 0xAF then [0x20; macron]
  else if c =? 0xB2 then [0x32]
  else if c =? 0xB3 then [0x33]
  else if c =? 0xB4 then [0x20; acute]
  else if c =? 0xB5 then [0x3BC]
  else if c =? 0xB8 then [0x20; cedilla]
  else if c =? 0xB9 then [0x31]
  else if c =? 0xBA then [0x6F]
  else if c =? 0xBC then [0x31; 0x2044; 0x34]
  else if c =? 0xBD then [0x31; 0x2044; 0x32]
  else if c =? 0xBE then [0x33; 0x2044; 0x34]
  else if c =? 0xC0 then [0x41; grave]
  else if c =? 0xC1 then [0x41; acute]
  else if c =? 0xC2 then [0x41; circumflex]
  else if c =? 0xC3 then [0x41; tilde]
  else if c =? 0xC4 then [0x41; diaeresis]
  else if c =? 0xC5 then [0x41; ring]
  else if c =? 0xC7 then [0x43; cedilla]
  else if c =? 0xC8 then [0x45; grave]
  else if c =? 0xC9 then [0x45; acute]
  else if c =? 0xCA then [0x45; circumflex]
  else if c =? 0xCB then [0x45; diaeresis]
  else if c =? 0xCC then [0x49; grave]
  else if c =? 0xCD then [0x49; acute]
  else if c =? 0xCE then [0x49; circumflex]
  else if c =? 0xCF then [0x49; diaeresis]
  else if c =? 0xD1 then [0x4E; tilde]
  else if c =? 0xD2 then [0x4F; grave]
  else if c =? 0xD3 then [0x4F; acute]
  else if c =? 0xD4 then [0x4F; circumflex]
  else if c =? 0xD5 then [0x4F; tilde]
  else if c =? 0xD6 then [0x4F; diaeresis]
  else if c =? 0xD9 then [0x55; grave]
  else if c =? 0xDA then [0x55; acute]
  else if c =? 0xDB then [0x55; circumflex]
  else if c =? 0xDC then [0x55; diaeresis]
  else if c =? 0xDD then [0x59; acute]
  else if c =? 0xE0 then [0x61; grave]
  else if c =? 0xE1 then [0x61; acute]
  else if c =? 0xE2 then [0x61; circumflex]
  else if c =? 0xE3 then [0x61; tilde]
  else if c =? 0xE4 then [0x61; diaeresis]
  else if c =? 0xE5 then [0x61; ring]
  else if c =? 0xE7 then [0x63; cedilla]
  else if c =? 0xE8 then [0x65; grave]
  else if c =? 0xE9 then [0x65; acute]
  else if c =? 0xEA then [0x65; circumflex]
  else if c =? 0xEB then [0x65; diaeresis]
  else if c =? 0xEC then [0x69; grave]
  else if c =? 0xED then [0x69; acute]
  else if c =? 0xEE then [0x69; circumflex]
  else if c =? 0xEF then [0x69; diaeresis]
  else if c =? 0xF1 then [0x6E; tilde]
  else if c =? 0xF2 then [0x6F; grave]
  else if c =? 0xF3 then [0x6F; acute]
  else if c =? 0xF4 then [0x6F; circumflex]
  else if c =? 0xF5 then [0x6F; tilde]
  else if c =? 0xF6 then [0x6F; diaeresis]
  else if c =? 0xF9 then [0x75; grave]
  else if c =? 0xFA then [0x75; acute]
  else if c =? 0xFB then [0x75; circumflex]
  else if c =? 0xFC then [0x75; diaeresis]
  else if c =? 0xFD then [0x79; acute]
  else if c =? 0xFF then [0x79; diaeresis]
  else [c].

Definition nfkd_latin1 (data : list Z) : list Z :=
  flat_map decomposition data.

End Unicode.
Import Unicode.

(** ** The normaliser *)

(** [def _u8(string) : return string.encode('utf-8')] *)
Definition _u8 (s : list Z) : string :=
  str_of (flat_map utf8_encode1 s).

(** [def _un(string) : return string.decode('utf-8')] *)
Definition _un (s : string) : result (list Z) :=
  utf8_decode (bytes_of s).

Section Normaliser.

Variable nfkd : list Z -> list Z.

(** [def _remove_accents(data): return ''.join(x for x in
    unicodedata.normalize('NFKD', data) if x in string.ascii_letters)] *)
Definition _remove_accents (data : list Z) : list Z :=
  filter (fun x => x ∈ ascii_letters) (nfkd data).

(** The expression [_remove_accents(_un(t.lower()))] that
    [search_by_title] and [_is_target] apply to every title. *)
Definition normalize (t : string) : result (list Z) :=
  _remove_accents <$> _un (lower t).

End Normaliser.

(** ** Python built-ins used by the edit distance *)

Module Py.

(** [s[i]]: a negative index counts from the end. *)
Definition getitem (s : list Z) (i : Z) : result Z :=
  let n := Z.of_nat (length s) in
  let k := if i <? 0 then i + n else i in
  if (0 <=? k) && (k <? n) then
    match s !! Z.to_nat k with
    | Some c => Ok c
    | None => Raise IndexError
    end
  else Raise IndexError.

(** [d[k]] *)
Definition getd (d : gmap (Z * Z) Z) (k : Z * Z) : result Z :=
  match d !! k with
  | Some v => Ok v
  | None => Raise KeyError
  end.

(** [xrange(a, b)] *)
Definition xrange (a b : Z) : list Z := seqZ a (b - a).

(** [for i in l: body], the body threading the state [S]. *)
Fixpoint for_ {S : Type} (l : list Z) (body : Z -> S -> result S) (s : S)
  : result S :=
  match l with
  | [] => Ok s
  | i :: l' => s' ← body i s; for_ l' body s'
  end.

Definition len {A : Type} (l : list A) : Z := Z.of_nat (length l).

End Py.
Import Py.

(** ** [_levenshtein] *)

(** The body of the inner loop: one cell [d[(i,j)]]. *)
Definition lev_cell (s1 s2 : list Z) (i j : Z) (d : gmap (Z * Z) Z)
  : result (gmap (Z * Z) Z) :=
  a ← getitem s1 i;
  b ← getitem s2 j;
  let cost := if a =? b then 0 else 1 in
  x ← getd d (i - 1, j);
  y ← getd d (i, j - 1);
  z ← getd d (i - 1, j - 1);
  let d := <[(i, j) := Z.min (Z.min (x + 1) (y + 1)) (z + cost)]> d in
  t ← (if negb (i =? 0) && negb (j =? 0) then
         a1 ← getitem s1 i;
         b1 ← getitem s2 (j - 1);
         if a1 =? b1 then
           a2 ← getitem s1 (i - 1);
           b2 ← getitem s2 j;
           Ok (a2 =? b2)
         else Ok false
       else Ok false);
  if t : bool then
    v ← getd d (i, j);
    w ← getd d (i - 2, j - 2);
    Ok (<[(i, j) := Z.min v (w + cost)]> d)
  else Ok d.

Definition _levenshtein (s1 s2 : list Z) : result Z :=
  let d : gmap (Z * Z) Z := ∅ in
  let lenstr1 := len s1 in
  let lenstr2 := len s2 in
  d ← for_ (xrange (-1) (lenstr1 + 1))
         (fun i d => Ok (<[(i, -1) := i + 1]> d)) d;
  d ← for_ (xrange (-1) (lenstr2 + 1))
         (fun j d => Ok (<[(-1, j) := j + 1]> d)) d;
  d ← for_ (xrange 0 lenstr1)
         (fun i d => for_ (xrange 0 lenstr2) (fun j d => lev_cell s1 s2 i j d) d) d;
  getd d (lenstr1 - 1, lenstr2 - 1).

(** ** Edit scripts

    [osa a b n]: [a] is aligned with [b] at cost [n], reading both strings
    from one end.  A step deletes a character of [a], inserts a character
    of [b], matches or substitutes one for one, or exchanges two adjacent
    characters; a pair that was exchanged is not edited again (the
    restricted distance, also called optimal string alignment). *)

Definition subst_cost (x y : Z) : nat := if x =? y then 0%nat else 1%nat.

Inductive osa : list Z -> list Z -> nat -> Prop :=
| osa_nil : osa [] [] 0
| osa_del x a b n : osa a b n -> osa (x :: a) b (S n)
| osa_ins y a b n : osa a b n -> osa a (y :: b) (S n)
| osa_sub x y a b n : osa a b n -> osa (x :: a) (y :: b) (subst_cost x y + n)
| osa_swap x y a b n : osa a b n -> osa (x :: y :: a) (y :: x :: b) (S n).

(** The cost of a cheapest script, by recursion on both strings. *)
Fixpoint osa_dist (a : list Z) : list Z -> nat :=
  match a with
  | [] => fun b => length b
  | x :: a' =>
      fix inner (b : list Z) : nat :=
        match b with
        | [] => S (length a')
        | y :: b' =>
            let c := subst_cost x y in
            let m := Nat.min (Nat.min (osa_dist a' b + 1) (inner b' + 1))
                       (osa_dist a' b' + c) in
            match a', b' with
            | x' :: a'', y' :: b'' =>
                if (x =? y') && (x' =? y)
                then Nat.min m (osa_dist a'' b'' + c)
                else m
            | _, _ => m
            end
        end
  end.

(** ** Unrestricted edits

    One edit operation anywhere in the string, and chains of them: the
    Damerau-Levenshtein distance is the length of a shortest chain. *)

Inductive edit1 : list Z -> list Z -> Prop :=
| edit_ins l1 c l2 : edit1 (l1 ++ l2) (l1 ++ c :: l2)
| edit_del l1 c l2 : edit1 (l1 ++ c :: l2) (l1 ++ l2)
| edit_sub l1 c c' l2 : edit1 (l1 ++ c :: l2) (l1 ++ c' :: l2)
| edit_swap l1 c c' l2 : edit1 (l1 ++ c :: c' :: l2) (l1 ++ c' :: c :: l2).

Inductive edits : nat -> list Z -> list Z -> Prop :=
| edits_0 a : edits 0 a a
| edits_S n a b c : edit1 a b -> edits n b c -> edits (S n) a c.

Definition damerau_levenshtein (a b : list Z) (d : Z) : Prop :=
  (exists n, d = Z.of_nat n /\ edits n a b) /\
  (forall n, edits n a b -> d <= Z.of_nat n).

(** ** Floats *)

Module Float.

Definition prec : Z := 53.
Definition emax : Z := 1024.

(** [float(n)] of an [int]: the nearest double, [OverflowError] when
    there is none. *)
Definition of_int (n : Z) : result spec_float :=
  match binary_normalize prec emax n 0 false with
  | S754_infinity _ => Raise OverflowError
  | f => Ok f
  end.

(** [x / y] *)
Definition div (x y : spec_float) : result spec_float :=
  match y with
  | S754_zero _ => Raise ZeroDivisionError
  | _ => Ok (SFdiv prec emax x y)
  end.

(** [x < y] and [x <= y] *)
Definition ltb (x y : spec_float) : bool := SFltb x y.
Definition leb (x y : spec_float) : bool := SFleb x y.

(** The literals [0.01], [100.0], [0.2], and [0.0], [1.0]. *)
Definition f0_01 : spec_float := S754_finite false 5764607523034235 (-59).
Definition f100 : spec_float := S754_finite false 7036874417766400 (-46).
Definition f0_2 : spec_float := S754_finite false 7205759403792794 (-55).
Definition f0 : spec_float := S754_zero false.
Definition f1 : spec_float := S754_finite false 4503599627370496 (-52).

(** A value that is zero, positive and finite, or plus infinity. *)
Definition nonneg (x : spec_float) : bool :=
  match x with
  | S754_zero _ | S754_finite false _ _ | S754_infinity false => true
  | _ => false
  end.

(** A value that is zero or positive and finite. *)
Definition finite_nonneg (x : spec_float) : bool :=
  match x with
  | S754_zero _ | S754_finite false _ _ => true
  | _ => false
  end.

End Float.

(** ** Records *)

Record Publication : Type := {
  pkey : string;
  ptype : option string;
  title : string;
  authors : list string;
  url : option string;
  journal : option string;
  booktitle : option string;
  editor : option string;
  volume : option string;
  pages : option string;
  number : option string;
  series : option string;
  chapter : option string;
  publisher : option string;
  adress : option string;
  year : option string;
  month : option string;
  isbn : option string;
  bibtex : option (list string)
}.

(** [Publication(pkey, ptype, title, authors)]: the other arguments of
    [__init__] default to [None]. *)
Definition Publication_init (pkey : string) (ptype : option string)
    (title : string) (authors : list string) : Publication :=
  {| pkey := pkey; ptype := ptype; title := title; authors := authors;
     url := None; journal := None; booktitle := None; editor := None;
     volume := None; pages := None; number := None; series := None;
     chapter := None; publisher := None; adress := None; year := None;
     month := None; isbn := None; bibtex := None |}.

Record DBLPResult : Type := {
  query : string;
  publications : list Publication;
  result_authors : list (string * string)
}.

(** ** The matcher *)

(** [float(_levenshtein(t1,t2))/float(len(t1))], the character error
    rate. *)
Definition CER (t1 t2 : list Z) : result spec_float :=
  d ← _levenshtein t1 t2;
  x ← Float.of_int d;
  y ← Float.of_int (len t1);
  Float.div x y.

Section Matcher.

Variable nfkd : list Z -> list Z.

(** The loop of [search_by_title] for [lev=False]. *)
Fixpoint exact_scan (t2 : list Z) (pubs : list Publication)
  : result (option Publication) :=
  match pubs with
  | [] => Ok None
  | p :: ps =>
      t1 ← normalize nfkd (title p);
      if bool_decide (t1 = t2) then Ok (Some p) else exact_scan t2 ps
  end.

(** The loop of [search_by_title] for [lev=True], with the test on
    [min_cer] that follows it; [min_cer] and [best] are the loop's
    variables. *)
Fixpoint lev_scan (t2 : list Z) (threshold : spec_float)
    (pubs : list Publication) (min_cer : spec_float)
    (best : option Publication) : result (option Publication) :=
  match pubs with
  | [] => Ok (if Float.ltb min_cer threshold then best else None)
  | p :: ps =>
      t1 ← normalize nfkd (title p);
      cer ← CER t1 t2;
      if Float.ltb cer Float.f0_01 then Ok (Some p)
      else if Float.ltb cer min_cer
           then lev_scan t2 threshold ps cer (Some p)
           else lev_scan t2 threshold ps min_cer best
  end.

(** [DBLPResult.search_by_title(self, title, lev, threshold)]; the
    parameter [title] is [target] here. *)
Definition search_by_title (self : DBLPResult) (target : string)
    (lev : bool) (threshold : spec_float) : result (option Publication) :=
  t2 ← normalize nfkd target;
  if negb lev then exact_scan t2 (publications self)
  else lev_scan t2 threshold (publications self) Float.f100 None.

(** [DBLPSearch._is_target(self, t1, t2, lev, threshold)] *)
Definition _is_target (t1 t2 : string) (lev : bool)
    (threshold : spec_float) : result bool :=
  t1 ← normalize nfkd t1;
  t2 ← normalize nfkd t2;
  if negb lev then Ok (bool_decide (t1 = t2))
  else
    cer ← CER t1 t2;
    Ok (Float.ltb cer threshold).

(** The character error rate of a publication against a normalised
    target. *)
Definition cer_of (t2 : list Z) (p : Publication) : result spec_float :=
  t1 ← normalize nfkd (title p);
  CER t1 t2.

(** A publication that the approximate scan passes: it has a rate, and
    the rate is not below 0.01. *)
Definition passed (t2 : list Z) (q : Publication) : Prop :=
  exists c, cer_of t2 q = Ok c /\ Float.ltb c Float.f0_01 = false.

End Matcher.

(** A result holding publications with the given titles. *)
Definition result_of_titles (ts : list string) : DBLPResult :=
  {| query := "";
     publications := map (fun t => Publication_init "" None t []) ts;
     result_authors := [] |}.

(** ** The table of [_levenshtein]

    [d[(i,j)]] is to hold the cost of a cheapest script between the first
    [i+1] characters of [s1] and the first [j+1] characters of [s2]. *)

Section Table.

Variables s1 s2 : list Z.

(** The first [k] characters, last one first. *)
Definition pre (s : list Z) (k : Z) : list Z := rev (take (Z.to_nat k) s).

Definition cell_value (i j : Z) : Z :=
  Z.of_nat (osa_dist (pre s1 (i + 1)) (pre s2 (j + 1))).

(** The cells that hold their value when the loops are about to compute
    cell [(i,j)]: row and column [-1], the rows above [i], and row [i] to
    the left of [j]. *)
Definition filled (i j : Z) (d : gmap (Z * Z) Z) : Prop :=
  forall i' j',
    -1 <= i' < len s1 -> -1 <= j' < len s2 ->
    i' = -1 \/ j' = -1 \/ i' < i \/ (i' = i /\ j' < j) ->
    d !! (i', j') = Some (cell_value i' j').

End Table.

(** ** The best candidate

    [first_min cs i c]: [c] is the rate at index [i] of [cs], every
    earlier rate is larger and no rate is smaller. *)

Definition first_min (cs : list spec_float) (i : nat) (c : spec_float) : Prop :=
  cs !! i = Some c /\
  (forall j c', (j < i)%nat -> cs !! j = Some c' -> Float.ltb c c' = true) /\
  (forall j c', cs !! j = Some c' -> Float.ltb c' c = false).

(** [self] with another list of publications. *)
Definition with_publications (self : DBLPResult) (pubs : list Publication)
  : DBLPResult :=
  {| query := query self; publications := pubs;
     result_authors := result_authors self |}.

(** ** Strings of the query and of the citation *)

Module Str.

(** Whitespace of [str.split()]: space, and the bytes 9 to 13. *)
Definition is_space (c : ascii) : bool :=
  let n := nat_of_ascii c in
  Nat.eqb n 32 || (Nat.leb 9 n && Nat.leb n 13).

Definition starts_word (s : string) : bool :=
  match s with
  | EmptyString => false
  | String c _ => negb (is_space c)
  end.

(** [s.split()]: the maximal runs of characters that are not
    whitespace. *)
Fixpoint split (s : string) : list string :=
  match s with
  | EmptyString => []
  | String c s' =>
      if is_space c then split s'
      else if starts_word s' then
        match split s' with
        | w :: ws => String c w :: ws
        | [] => [String c EmptyString]
        end
      else String c EmptyString :: split s'
  end.

(** [sep.join(l)] *)
Definition join (sep : string) (l : list string) : string :=
  String.concat sep l.

(** [s.split(sep)] for a separator that is not empty: the pieces between
    the occurrences of [sep], found from the left; [skip] counts the
    characters of an occurrence that are still to be passed. *)
Fixpoint split_on (sep : string) (s : string) (skip : nat) : list string :=
  match s with
  | EmptyString => [EmptyString]
  | String c s' =>
      match skip with
      | S k => split_on sep s' k
      | O =>
          if String.prefix sep s
          then EmptyString :: split_on sep s' (String.length sep - 1)
          else match split_on sep s' 0 with
               | w :: ws => String c w :: ws
               | [] => [String c EmptyString]
               end
      end
  end.

(** [sep] occurs in [s]. *)
Fixpoint occurs (sep : string) (s : string) : bool :=
  String.prefix sep s ||
  match s with
  | EmptyString => false
  | String _ s' => occurs sep s'
  end.

(** No character of [s] is whitespace. *)
Definition no_space (s : string) : Prop :=
  forall c, In c (list_ascii_of_string s) -> is_space c = false.

End Str.

(** [DBLPSearch.__init__(self, query)]: the attribute [query] of the
    search object. *)
Definition DBLPSearch_init (query : string) : string :=
  Str.join "%20" (Str.split query).

(** [' '.join(self.query.split('%20'))], the query text that [search]
    stores in its result and [_get_authors] puts in its error. *)
Definition query_text (self_query : string) : string :=
  Str.join " " (Str.split_on "%20" self_query 0).

(** ** [Publication.__repr__] *)

(** The loop that builds [authors_string]: every author but the last
    followed by a comma, the last one by a full stop. *)
Definition authors_string (authors : list string) : string :=
  if (0 <? length authors)%nat then
    (fold_left (fun acc i => acc ++ (nth i authors "" ++ ", "))%string
       (seq 0 (length authors - 1)) "" ++
     (nth (length authors - 1) authors "" ++ "."))%string
  else "".

(** Every author followed by a comma. *)
Fixpoint with_commas (l : list string) : string :=
  match l with
  | [] => ""
  | a :: l' => (a ++ ", " ++ with_commas l')%string
  end.

Definition repr (self : Publication) : string :=
  let citation := title self in
  let citation :=
    if string_dec (authors_string (authors self)) ""
    then citation
    else (citation ++ (" " ++ authors_string (authors self)))%string in
  match journal self with
  | Some j => (citation ++ (" " ++ j ++ "."))%string
  | None =>
      match booktitle self with
      | Some b => (citation ++ (" " ++ b ++ "."))%string
      | None => citation
      end
  end.

(** ** [DBLPSearch._strip_tags]

    [re.compile(r'<.*?>').sub('', html)]: a [<] starts a tag when a [>]
    follows before the end of the line, and the tag ends at the first
    such [>]; [.] does not match a newline. *)

Module Tags.

Definition lt : ascii := "<".
Definition gt : ascii := ">".
Definition newline : ascii := "010".

(** A [>] comes before the end of the line. *)
Fixpoint closes (s : string) : bool :=
  match s with
  | EmptyString => false
  | String c s' =>
      if Ascii.eqb c gt then true
      else if Ascii.eqb c newline then false
      else closes s'
  end.

(** The scan: [inside] holds between the [<] of a tag and its [>]. *)
Fixpoint strip (s : string) (inside : bool) : string :=
  match s with
  | EmptyString => EmptyString
  | String c s' =>
      if inside then
        if Ascii.eqb c gt then strip s' false else strip s' true
      else if Ascii.eqb c lt && closes s' then strip s' true
      else String c (strip s' false)
  end.

(** The character [a] does not occur in [s]. *)
Definition without (a : ascii) (s : string) : Prop :=
  forall c, In c (list_ascii_of_string s) -> c <> a.

End Tags.

Definition _strip_tags (html : string) : string := Tags.strip html false.

(** * Properties *)

(** ** Edit scripts and their cheapest cost *)

Lemma osa_cost a b n m : osa a b n -> n = m -> osa a b m.
Proof. intros H <-. exact H. Qed.

Lemma subst_cost_sym x y : subst_cost x y = subst_cost y x.
Proof. unfold subst_cost. rewrite (Z.eqb_sym x y). reflexivity. Qed.

Lemma subst_cost_le x y : (subst_cost x y <= 1)%nat.
Proof. unfold subst_cost. destruct (x =? y); lia. Qed.

Lemma subst_cost_refl x : subst_cost x x = 0%nat.
Proof. unfold subst_cost. rewrite Z.eqb_refl. reflexivity. Qed.

Lemma osa_dist_nil_r a : osa_dist a [] = length a.
Proof. destruct a; reflexivity. Qed.

Lemma osa_dist_cons x a' y b' :
  osa_dist (x :: a') (y :: b') =
  let c := subst_cost x y in
  let m := Nat.min (Nat.min (osa_dist a' (y :: b') + 1)
                      (osa_dist (x :: a') b' + 1))
             (osa_dist a' b' + c) in
  match a', b' with
  | x' :: a'', y' :: b'' =>
      if (x =? y') && (x' =? y)
      then Nat.min m (osa_dist a'' b'' + c)
      else m
  | _, _ => m
  end.
Proof. reflexivity. Qed.

Lemma osa_dist_cons_le x a' y b' :
  (osa_dist (x :: a') (y :: b') <= osa_dist a' (y :: b') + 1)%nat /\
  (osa_dist (x :: a') (y :: b') <= osa_dist (x :: a') b' + 1)%nat /\
  (osa_dist (x :: a') (y :: b') <= osa_dist a' b' + subst_cost x y)%nat.
Proof.
  rewrite osa_dist_cons. cbv zeta.
  destruct a' as [|x' a'']; [lia|].
  destruct b' as [|y' b'']; [lia|].
  destruct ((x =? y') && (x' =? y)); lia.
Qed.

Lemma osa_dist_swap_le x y a b :
  (osa_dist (x :: y :: a) (y :: x :: b) <= osa_dist a b + subst_cost x y)%nat.
Proof.
  rewrite osa_dist_cons. cbv zeta.
  rewrite !Z.eqb_refl. simpl andb. cbv iota. lia.
Qed.

(** Every script costs at least [osa_dist]. *)
Lemma osa_dist_min a b n : osa a b n -> (osa_dist a b <= n)%nat.
Proof.
  induction 1 as [|x a b n H IH|y a b n H IH|x y a b n H IH|x y a b n H IH].
  - simpl. lia.
  - destruct b as [|y b'].
    + rewrite osa_dist_nil_r in *. simpl. lia.
    + pose proof (osa_dist_cons_le x a y b'). lia.
  - destruct a as [|x a'].
    + simpl in *. lia.
    + pose proof (osa_dist_cons_le x a' y b). lia.
  - pose proof (osa_dist_cons_le x a y b). lia.
  - pose proof (osa_dist_swap_le x y a b).
    pose proof (subst_cost_le x y). lia.
Qed.

Lemma osa_nil_l b : osa [] b (length b).
Proof. induction b; simpl; constructor; assumption. Qed.

Lemma osa_nil_r a : osa a [] (length a).
Proof. induction a; simpl; constructor; assumption. Qed.

(** [osa_dist] is the cost of a script. *)
Lemma osa_dist_sound_aux k :
  forall a, (length a <= k)%nat -> forall b, osa a b (osa_dist a b).
Proof.
  induction k as [|k IHk]; intros a Hlen.
  - destruct a; [|simpl in Hlen; lia]. intros b. apply osa_nil_l.
  - destruct a as [|x a']; [intros b; apply osa_nil_l|].
    simpl in Hlen.
    assert (Ha' : forall b, osa a' b (osa_dist a' b)) by (apply IHk; lia).
    induction b as [|y b' IHb].
    + rewrite osa_dist_nil_r. apply osa_nil_r.
    + assert (Hm : osa (x :: a') (y :: b')
                     (Nat.min (Nat.min (osa_dist a' (y :: b') + 1)
                                 (osa_dist (x :: a') b' + 1))
                        (osa_dist a' b' + subst_cost x y))).
      { destruct (Nat.min_spec (Nat.min (osa_dist a' (y :: b') + 1)
                                  (osa_dist (x :: a') b' + 1))
                    (osa_dist a' b' + subst_cost x y)) as [[_ ->]|[_ ->]].
        - destruct (Nat.min_spec (osa_dist a' (y :: b') + 1)
                      (osa_dist (x :: a') b' + 1)) as [[_ ->]|[_ ->]].
          + eapply osa_cost; [apply osa_del, Ha'|lia].
          + eapply osa_cost; [apply osa_ins, IHb|lia].
        - eapply osa_cost; [apply osa_sub, Ha'|lia]. }
      rewrite osa_dist_cons. cbv zeta.
      destruct a' as [|x' a'']; [exact Hm|].
      destruct b' as [|y' b'']; [exact Hm|].
      destruct ((x =? y') && (x' =? y)) eqn:Hc; [|exact Hm].
      apply andb_true_iff in Hc as [->%Z.eqb_eq ->%Z.eqb_eq].
      match goal with |- osa _ _ (Nat.min ?p ?q) =>
        destruct (Nat.min_spec p q) as [[_ ->]|[_ ->]] end; [exact Hm|].
      assert (Ha'' : osa a'' b'' (osa_dist a'' b'')).
      { apply IHk. simpl in Hlen. lia. }
      unfold subst_cost. destruct (y' =? y) eqn:Hxy.
      * apply Z.eqb_eq in Hxy as ->.
        eapply osa_cost; [apply (osa_sub y y), (osa_sub y y), Ha''|].
        rewrite subst_cost_refl. lia.
      * eapply osa_cost; [apply osa_swap, Ha''|lia].
Qed.

Lemma osa_dist_sound a b : osa a b (osa_dist a b).
Proof. apply (osa_dist_sound_aux (length a)). lia. Qed.

(** Scripts are symmetric, and can be read from the other end. *)
Lemma osa_sym a b n : osa a b n -> osa b a n.
Proof.
  induction 1; try (constructor; assumption).
  rewrite subst_cost_sym. constructor. assumption.
Qed.

Lemma osa_del_snoc x a b n : osa a b n -> osa (a ++ [x]) b (S n).
Proof.
  induction 1; simpl.
  - apply osa_del, osa_nil.
  - apply osa_del. assumption.
  - apply osa_ins. assumption.
  - eapply osa_cost; [apply osa_sub; eassumption|lia].
  - apply osa_swap. assumption.
Qed.

Lemma osa_ins_snoc y a b n : osa a b n -> osa a (b ++ [y]) (S n).
Proof.
  intros H. apply osa_sym. apply osa_del_snoc. apply osa_sym. exact H.
Qed.

Lemma osa_sub_snoc x y a b n :
  osa a b n -> osa (a ++ [x]) (b ++ [y]) (subst_cost x y + n).
Proof.
  induction 1; simpl.
  - apply (osa_sub x y [] [] 0), osa_nil.
  - eapply osa_cost; [apply osa_del; eassumption|lia].
  - eapply osa_cost; [apply osa_ins; eassumption|lia].
  - eapply osa_cost; [apply osa_sub; eassumption|lia].
  - eapply osa_cost; [apply osa_swap; eassumption|lia].
Qed.

Lemma osa_swap_snoc x y a b n :
  osa a b n -> osa (a ++ [x; y]) (b ++ [y; x]) (S n).
Proof.
  induction 1; simpl.
  - apply osa_swap, osa_nil.
  - apply osa_del. assumption.
  - apply osa_ins. assumption.
  - eapply osa_cost; [apply osa_sub; eassumption|lia].
  - apply osa_swap. assumption.
Qed.

Lemma osa_rev a b n : osa a b n -> osa (rev a) (rev b) n.
Proof.
  induction 1; simpl.
  - constructor.
  - apply osa_del_snoc. assumption.
  - apply osa_ins_snoc. assumption.
  - apply osa_sub_snoc. assumption.
  - rewrite <- !app_assoc. simpl. apply osa_swap_snoc. assumption.
Qed.

Lemma osa_dist_sym a b : osa_dist a b = osa_dist b a.
Proof.
  apply Nat.le_antisymm; apply osa_dist_min, osa_sym, osa_dist_sound.
Qed.

Lemma osa_dist_rev a b : osa_dist (rev a) (rev b) = osa_dist a b.
Proof.
  apply Nat.le_antisymm.
  - apply osa_dist_min, osa_rev, osa_dist_sound.
  - rewrite <- (rev_involutive a), <- (rev_involutive b) at 1.
    apply osa_dist_min, osa_rev, osa_dist_sound.
Qed.

Lemma osa_dist_bound a b : (osa_dist a b <= length a + length b)%nat.
Proof.
  apply osa_dist_min.
  induction a as [|x a IH]; simpl.
  - apply osa_nil_l.
  - apply osa_del. exact IH.
Qed.

(** ** Loops *)

Lemma xrange_nil lo hi : hi <= lo -> xrange lo hi = [].
Proof. intros H. unfold xrange. apply seqZ_nil. lia. Qed.

Lemma xrange_cons lo hi : lo < hi -> xrange lo hi = lo :: xrange (lo + 1) hi.
Proof.
  intros H. unfold xrange. rewrite seqZ_cons by lia.
  f_equal. f_equal; lia.
Qed.

(** A loop over [xrange(lo, hi)] whose body keeps an invariant runs to
    its end and establishes the invariant at [hi]. *)
Lemma for_xrange_inv {S : Type} (P : Z -> S -> Prop)
    (body : Z -> S -> result S) (lo hi : Z) (s : S) :
  lo <= hi ->
  P lo s ->
  (forall k s, lo <= k < hi -> P k s -> exists s', body k s = Ok s' /\ P (k + 1) s') ->
  exists s', for_ (xrange lo hi) body s = Ok s' /\ P hi s'.
Proof.
  intros Hle. remember (Z.to_nat (hi - lo)) as n eqn:Hn.
  revert lo s Hle Hn. induction n as [|n IH]; intros lo s Hle Hn H0 Hstep.
  - assert (lo = hi) as -> by lia.
    rewrite xrange_nil by lia. simpl. eauto.
  - rewrite xrange_cons by lia. simpl.
    destruct (Hstep lo s) as (s' & -> & Hs'); [lia|assumption|].
    simpl. apply IH; [lia|lia|assumption|].
    intros k s0 Hk. apply Hstep. lia.
Qed.

(** ** Prefixes and the values of the table *)

Lemma pre_nonpos s k : k <= 0 -> pre s k = [].
Proof.
  intros H. unfold pre. replace (Z.to_nat k) with 0%nat by lia. reflexivity.
Qed.

Lemma pre_succ s k x :
  0 <= k -> s !! Z.to_nat k = Some x -> pre s (k + 1) = x :: pre s k.
Proof.
  intros Hk Hx. unfold pre.
  replace (Z.to_nat (k + 1)) with (S (Z.to_nat k)) by lia.
  rewrite (take_S_r _ _ _ Hx), rev_app_distr. reflexivity.
Qed.

Lemma length_pre s k : 0 <= k <= len s -> length (pre s k) = Z.to_nat k.
Proof.
  intros H. unfold pre, len in *.
  rewrite length_rev, length_take_le; lia.
Qed.

Lemma pre_full s : pre s (len s) = rev s.
Proof.
  unfold pre, len. rewrite Nat2Z.id, take_ge; [reflexivity|lia].
Qed.

Lemma getitem_ok s i :
  0 <= i < len s -> exists x, s !! Z.to_nat i = Some x /\ getitem s i = Ok x.
Proof.
  intros H. unfold len in H.
  destruct (lookup_lt_is_Some_2 s (Z.to_nat i)) as [x Hx]; [lia|].
  exists x. split; [exact Hx|].
  unfold getitem.
  replace (i <? 0) with false by lia.
  replace ((0 <=? i) && (i <? Z.of_nat (length s))) with true by lia.
  rewrite Hx. reflexivity.
Qed.

Lemma getd_some (d : gmap (Z * Z) Z) k v : d !! k = Some v -> getd d k = Ok v.
Proof. intros H. unfold getd. rewrite H. reflexivity. Qed.

Section TableProperties.

Variables s1 s2 : list Z.

Lemma cell_value_row i : -1 <= i < len s1 -> cell_value s1 s2 i (-1) = i + 1.
Proof.
  intros H. unfold cell_value.
  rewrite (pre_nonpos s2) by lia.
  rewrite osa_dist_nil_r, length_pre by lia. lia.
Qed.

Lemma cell_value_col j : -1 <= j < len s2 -> cell_value s1 s2 (-1) j = j + 1.
Proof.
  intros H. unfold cell_value.
  rewrite (pre_nonpos s1) by lia.
  simpl. rewrite length_pre by lia. lia.
Qed.

(** The recurrence of the table, as the loop body computes it. *)
Lemma cell_value_step i j x y :
  0 <= i -> 0 <= j ->
  s1 !! Z.to_nat i = Some x -> s2 !! Z.to_nat j = Some y ->
  let cost := if x =? y then 0 else 1 in
  let m := Z.min (Z.min (cell_value s1 s2 (i - 1) j + 1)
                    (cell_value s1 s2 i (j - 1) + 1))
             (cell_value s1 s2 (i - 1) (j - 1) + cost) in
  (i = 0 \/ j = 0 -> cell_value s1 s2 i j = m) /\
  (forall x' y',
      0 < i -> 0 < j ->
      s1 !! Z.to_nat (i - 1) = Some x' -> s2 !! Z.to_nat (j - 1) = Some y' ->
      cell_value s1 s2 i j =
      if (x =? y') && (x' =? y)
      then Z.min m (cell_value s1 s2 (i - 2) (j - 2) + cost)
      else m).
Proof.
  intros Hi Hj Hx Hy cost m.
  assert (Hc : cost = Z.of_nat (subst_cost x y)).
  { unfold cost, subst_cost. destruct (x =? y); reflexivity. }
  assert (Hm : m = Z.of_nat
             (Nat.min (Nat.min (osa_dist (pre s1 i) (y :: pre s2 j) + 1)
                         (osa_dist (x :: pre s1 i) (pre s2 j) + 1))
                (osa_dist (pre s1 i) (pre s2 j) + subst_cost x y))).
  { unfold m, cell_value. rewrite Hc.
    replace (i - 1 + 1) with i by lia. replace (j - 1 + 1) with j by lia.
    rewrite (pre_succ s1 i x), (pre_succ s2 j y) by assumption. lia. }
  assert (Hv : cell_value s1 s2 i j =
               Z.of_nat (osa_dist (x :: pre s1 i) (y :: pre s2 j))).
  { unfold cell_value.
    rewrite (pre_succ s1 i x), (pre_succ s2 j y) by assumption. reflexivity. }
  split.
  - intros H0. rewrite Hv, Hm, osa_dist_cons. cbv zeta.
    destruct H0 as [-> | ->].
    + rewrite (pre_nonpos s1 0) by lia. reflexivity.
    + rewrite (pre_nonpos s2 0) by lia.
      destruct (pre s1 i); reflexivity.
  - intros x' y' Hi0 Hj0 Hx' Hy'.
    assert (Hpi : pre s1 i = x' :: pre s1 (i - 1)).
    { replace i with (i - 1 + 1) at 1 by lia. apply pre_succ; [lia|assumption]. }
    assert (Hpj : pre s2 j = y' :: pre s2 (j - 1)).
    { replace j with (j - 1 + 1) at 1 by lia. apply pre_succ; [lia|assumption]. }
    rewrite Hv, Hm, osa_dist_cons. cbv zeta.
    rewrite Hpi, Hpj.
    destruct ((x =? y') && (x' =? y)); [|reflexivity].
    unfold cell_value. rewrite Hc.
    replace (i - 2 + 1) with (i - 1) by lia.
    replace (j - 2 + 1) with (j - 1) by lia. lia.
Qed.

(** One run of the loop body fills cell [(i,j)]. *)
Lemma lev_cell_filled i j d :
  0 <= i < len s1 -> 0 <= j < len s2 ->
  filled s1 s2 i j d ->
  exists d', lev_cell s1 s2 i j d = Ok d' /\ filled s1 s2 i (j + 1) d'.
Proof.
  intros Hi Hj Hd.
  destruct (getitem_ok s1 i Hi) as (x & Hx & Hgx).
  destruct (getitem_ok s2 j Hj) as (y & Hy & Hgy).
  pose proof (cell_value_step i j x y (proj1 Hi) (proj1 Hj) Hx Hy) as Hstep.
  cbv zeta in Hstep. destruct Hstep as [Hstep0 Hstep1].
  assert (H1 : d !! (i - 1, j) = Some (cell_value s1 s2 (i - 1) j))
    by (apply Hd; lia).
  assert (H2 : d !! (i, j - 1) = Some (cell_value s1 s2 i (j - 1)))
    by (apply Hd; lia).
  assert (H3 : d !! (i - 1, j - 1) = Some (cell_value s1 s2 (i - 1) (j - 1)))
    by (apply Hd; lia).
  apply getd_some in H1, H2, H3.
  unfold lev_cell. rewrite Hgx, Hgy. simpl.
  rewrite H1. simpl. rewrite H2. simpl. rewrite H3. simpl.
  set (cost := if x =? y then 0 else 1) in *.
  set (m := Z.min (Z.min (cell_value s1 s2 (i - 1) j + 1)
                     (cell_value s1 s2 i (j - 1) + 1))
              (cell_value s1 s2 (i - 1) (j - 1) + cost)) in *.
  assert (Hfill : forall v, v = cell_value s1 s2 i j ->
            filled s1 s2 i (j + 1) (<[(i, j) := v]> d)).
  { intros v -> i' j' Hi' Hj' Hc.
    destruct (decide ((i, j) = (i', j'))) as [[= <- <-]|Hne].
    - apply lookup_insert_eq.
    - rewrite lookup_insert_ne by exact Hne. apply Hd; [lia|lia|].
      assert (~ (i' = i /\ j' = j)) by (intros [-> ->]; apply Hne; reflexivity).
      lia. }
  destruct (negb (i =? 0) && negb (j =? 0)) eqn:Hij.
  - assert (0 < i /\ 0 < j) as [Hi0 Hj0].
    { apply andb_true_iff in Hij as [Ha Hb].
      apply negb_true_iff in Ha, Hb. lia. }
    destruct (getitem_ok s1 (i - 1)) as (x' & Hx' & Hgx'); [lia|].
    destruct (getitem_ok s2 (j - 1)) as (y' & Hy' & Hgy'); [lia|].
    specialize (Hstep1 x' y' Hi0 Hj0 Hx' Hy').
    rewrite Hgy'. simpl.
    destruct (x =? y') eqn:Hxy'; simpl.
    + rewrite Hgx'. simpl.
      destruct (x' =? y) eqn:Hx'y; simpl in *.
      * unfold getd. rewrite lookup_insert_eq. simpl.
        rewrite lookup_insert_ne by (intros [= ? ?]; lia).
        rewrite (Hd (i - 2) (j - 2)) by lia. simpl.
        eexists. split; [reflexivity|].
        intros i' j' Hi' Hj' Hc.
        rewrite insert_insert_eq. apply Hfill; [|assumption..].
        symmetry. exact Hstep1.
      * eexists. split; [reflexivity|]. apply Hfill. symmetry. exact Hstep1.
    + eexists. split; [reflexivity|]. apply Hfill. symmetry. exact Hstep1.
  - simpl. eexists. split; [reflexivity|]. apply Hfill.
    symmetry. apply Hstep0.
    apply andb_false_iff in Hij as [Ha|Hb];
      [apply negb_false_iff in Ha|apply negb_false_iff in Hb]; lia.
Qed.

(** The two initialisation loops fill row and column [-1]. *)
Lemma lev_init_filled :
  exists d0 d1,
    for_ (xrange (-1) (len s1 + 1))
      (fun i d => Ok (<[(i, -1) := i + 1]> d)) (∅ : gmap (Z * Z) Z) = Ok d0 /\
    for_ (xrange (-1) (len s2 + 1))
      (fun j d => Ok (<[(-1, j) := j + 1]> d)) d0 = Ok d1 /\
    filled s1 s2 0 0 d1.
Proof.
  assert (Hl1 : 0 <= len s1) by (unfold len; lia).
  assert (Hl2 : 0 <= len s2) by (unfold len; lia).
  destruct (for_xrange_inv
              (fun k (d : gmap (Z * Z) Z) =>
                 forall i, -1 <= i < k -> d !! (i, -1) = Some (i + 1))
              (fun i d => Ok (<[(i, -1) := i + 1]> d))
              (-1) (len s1 + 1) ∅) as (d0 & Hd0 & Hinv0); [lia|intros; lia|..].
  { intros k d Hk Hinv. eexists. split; [reflexivity|].
    intros i Hi. destruct (decide (i = k)) as [->|Hne].
    - apply lookup_insert_eq.
    - rewrite lookup_insert_ne by (intros [= ?]; lia). apply Hinv. lia. }
  destruct (for_xrange_inv
              (fun k (d : gmap (Z * Z) Z) =>
                 (forall i, -1 <= i < len s1 + 1 -> d !! (i, -1) = Some (i + 1)) /\
                 (forall j, -1 <= j < k -> d !! (-1, j) = Some (j + 1)))
              (fun j d => Ok (<[(-1, j) := j + 1]> d))
              (-1) (len s2 + 1) d0) as (d1 & Hd1 & Hrow & Hcol);
    [lia|split; [exact Hinv0|intros; lia]|..].
  { intros k d Hk [Hr Hc]. eexists. split; [reflexivity|]. split.
    - intros i Hi. destruct (decide ((-1, k) = (i, -1))) as [[= <- ->]|Hne].
      + apply lookup_insert_eq.
      + rewrite lookup_insert_ne by exact Hne. apply Hr. lia.
    - intros j Hj. destruct (decide (j = k)) as [->|Hne].
      + apply lookup_insert_eq.
      + rewrite lookup_insert_ne by (intros [= ?]; lia). apply Hc. lia. }
  exists d0, d1. split; [exact Hd0|]. split; [exact Hd1|].
  intros i' j' Hi' Hj' Hc.
  destruct (decide (j' = -1)) as [->|Hj1].
  - rewrite cell_value_row by lia. apply Hrow. lia.
  - assert (i' = -1) as -> by lia.
    rewrite cell_value_col by lia. apply Hcol. lia.
Qed.

(** [_levenshtein] returns, and returns the cost of a cheapest script. *)
Lemma levenshtein_osa_dist :
  _levenshtein s1 s2 = Ok (Z.of_nat (osa_dist s1 s2)).
Proof.
  assert (Hl1 : 0 <= len s1) by (unfold len; lia).
  assert (Hl2 : 0 <= len s2) by (unfold len; lia).
  destruct lev_init_filled as (d0 & d1 & Hd0 & Hd1 & Hfill).
  unfold _levenshtein. cbv zeta. rewrite Hd0. simpl. rewrite Hd1. simpl.
  destruct (for_xrange_inv
              (fun i d => filled s1 s2 i 0 d)
              (fun i d => for_ (xrange 0 (len s2))
                            (fun j d => lev_cell s1 s2 i j d) d)
              0 (len s1) d1) as (d2 & Hd2 & Hfin); [lia|exact Hfill|..].
  { intros i d Hi Hd.
    destruct (for_xrange_inv
                (fun j d => filled s1 s2 i j d)
                (fun j d => lev_cell s1 s2 i j d)
                0 (len s2) d) as (d' & Hd' & Hrow); [lia|exact Hd|..].
    { intros j d' Hj Hd'. apply lev_cell_filled; assumption. }
    exists d'. split; [exact Hd'|].
    intros i' j' Hi' Hj' Hc. apply Hrow; [lia|lia|]. lia. }
  rewrite Hd2. simpl. unfold getd.
  rewrite (Hfin (len s1 - 1) (len s2 - 1)) by lia.
  unfold cell_value.
  replace (len s1 - 1 + 1) with (len s1) by lia.
  replace (len s2 - 1 + 1) with (len s2) by lia.
  rewrite !pre_full, osa_dist_rev. reflexivity.
Qed.

End TableProperties.

(** ** Floats *)

Module FloatFacts.
Import Float.

Lemma iter_pos_inv {A : Type} (P : A -> Prop) (f : A -> A) :
  (forall x, P x -> P (f x)) -> forall p x, P x -> P (SpecFloat.iter_pos f p x).
Proof.
  intros Hf. induction p as [p IH|p IH|]; intros x Hx; simpl.
  - apply IH, IH, Hf, Hx.
  - apply IH, IH, Hx.
  - apply Hf, Hx.
Qed.

Lemma shr_1_nonneg mrs : 0 <= shr_m mrs -> 0 <= shr_m (shr_1 mrs).
Proof.
  destruct mrs as [m r s]. simpl.
  destruct m as [|[p|p|]|p]; simpl; lia.
Qed.

Lemma shr_fexp_nonneg m e l :
  0 <= m -> 0 <= shr_m (fst (shr_fexp prec emax m e l)).
Proof.
  intros Hm. unfold shr_fexp, shr.
  assert (H0 : 0 <= shr_m (shr_record_of_loc m l))
    by (destruct l as [|[]]; exact Hm).
  destruct (fexp prec emax (Zdigits2 m + e) - e); simpl; try exact H0.
  apply (iter_pos_inv (fun mrs => 0 <= shr_m mrs)); [apply shr_1_nonneg|exact H0].
Qed.

Lemma round_nearest_even_nonneg m l : 0 <= m -> 0 <= round_nearest_even m l.
Proof.
  intros Hm. unfold round_nearest_even.
  destruct l as [|[]]; try destruct (Z.even m); lia.
Qed.

(** Rounding a non-negative mantissa gives zero, a positive finite
    number or plus infinity. *)
Lemma binary_round_aux_nonneg m e l :
  0 <= m -> nonneg (binary_round_aux prec emax false m e l) = true.
Proof.
  intros Hm. unfold binary_round_aux.
  pose proof (shr_fexp_nonneg m e l Hm) as H1.
  destruct (shr_fexp prec emax m e l) as [mrs' e']. simpl in H1.
  pose proof (shr_fexp_nonneg
                (round_nearest_even (shr_m mrs') (loc_of_shr_record mrs'))
                e' loc_Exact (round_nearest_even_nonneg _ _ H1)) as H2.
  destruct (shr_fexp prec emax _ e' loc_Exact) as [mrs'' e'']. simpl in H2.
  destruct (shr_m mrs'') as [|p|p]; [reflexivity| |lia].
  destruct (e'' <=? emax - prec); reflexivity.
Qed.

Lemma of_int_finite n f :
  0 <= n -> of_int n = Ok f -> finite_nonneg f = true.
Proof.
  intros Hn. unfold of_int, binary_normalize.
  destruct n as [|p|p]; [intros [= <-]; reflexivity| |lia].
  unfold binary_round.
  destruct (shl_align p 0 _) as [mz ez].
  pose proof (binary_round_aux_nonneg (Z.pos mz) ez loc_Exact) as H.
  destruct (binary_round_aux prec emax false (Z.pos mz) ez loc_Exact)
    as [[]|[]| |[] ? ?]; intros [= <-]; try reflexivity;
    specialize (H ltac:(lia)); discriminate.
Qed.

Lemma div_nonneg x y c :
  finite_nonneg x = true -> finite_nonneg y = true ->
  div x y = Ok c -> nonneg c = true.
Proof.
  unfold div.
  destruct y as [sy|[]| |[] my ey]; try discriminate; intros Hx _ [= <-].
  destruct x as [[]|[]| |[] mx ex]; try discriminate; try reflexivity.
    unfold SFdiv. simpl xorb.
    destruct (SFdiv_core_binary prec emax (Z.pos mx) ex (Z.pos my) ey)
      as [[mz ez] lz] eqn:Hcore.
    apply binary_round_aux_nonneg.
    unfold SFdiv_core_binary in Hcore.
    set (s := _ - _ - _) in Hcore.
    set (m' := match s with Z0 => _ | Z.pos _ => _ | Z.neg _ => _ end) in Hcore.
    assert (Hm' : 0 <= m').
    { unfold m'. destruct s; [lia| |lia]. apply Z.shiftl_nonneg. lia. }
    pose proof (Z.div_pos m' (Z.pos my) Hm' ltac:(lia)) as Hq.
    unfold Z.div in Hq.
    destruct (Z.div_eucl m' (Z.pos my)) as [q r]. simpl in Hq.
  injection Hcore as <- _ _. exact Hq.
Qed.

(** Integers below [2^53] are doubles. *)
Lemma digits2_pos_size p : digits2_pos p = Pos.size p.
Proof. induction p; simpl; congruence. Qed.

Lemma digits2_pos_iter p k :
  digits2_pos (Pos.iter xO p k) = (digits2_pos p + k)%positive.
Proof.
  induction k as [|k IH] using Pos.peano_ind.
  - simpl. lia.
  - rewrite Pos.iter_succ. simpl. rewrite IH. lia.
Qed.

Lemma of_int_small n :
  0 < n < 2 ^ 53 -> exists m e, of_int n = Ok (S754_finite false m e).
Proof.
  intros Hn. destruct n as [|p|p]; try lia.
  assert (Hd : Z.pos (digits2_pos p) <= 53).
  { rewrite digits2_pos_size.
    pose proof (Pos.size_le p) as Hs.
    destruct (Z_le_gt_dec (Z.pos (Pos.size p)) 53) as [|Hgt]; [assumption|].
    exfalso.
    assert (2 ^ 54 <= 2 ^ Z.pos (Pos.size p)) by (apply Z.pow_le_mono_r; lia).
    assert (Z.pos (2 ^ Pos.size p) <= Z.pos p~0) by exact Hs.
    rewrite Pos2Z.inj_pow in *. lia. }
  unfold of_int, binary_normalize, binary_round, shl_align.
  set (d := digits2_pos p) in *.
  assert (Hf : fexp prec emax (Z.pos d + 0) = Z.pos d - 53).
  { unfold fexp, emin, prec, emax. lia. }
  rewrite Hf.
  assert (Haux : forall mz ez,
             Z.pos (digits2_pos mz) = 53 -> -53 < ez <= 0 ->
             binary_round_aux prec emax false (Z.pos mz) ez loc_Exact
             = S754_finite false mz ez).
  { intros mz ez Hmz Hez.
    unfold binary_round_aux, shr_fexp. simpl Zdigits2. rewrite Hmz.
    assert (fexp prec emax (53 + ez) - ez = 0) as ->
      by (unfold fexp, emin, prec, emax; lia).
    simpl. rewrite Hmz.
    assert (fexp prec emax (53 + ez) - ez = 0) as ->
      by (unfold fexp, emin, prec, emax; lia).
    simpl. replace (ez <=? emax - prec) with true
      by (unfold emax, prec; lia).
    reflexivity. }
  destruct (Z.pos d - 53 - 0) as [|k|k] eqn:Hk.
  - rewrite Haux by lia. eauto.
  - lia.
  - rewrite Haux; [eauto| |lia].
    rewrite digits2_pos_iter. fold d. lia.
Qed.

(** The order of the comparison [<]. *)
Ltac cmp_step :=
  match goal with
  | H : context [Z.compare ?a ?b] |- _ => destruct (Z.compare_spec a b)
  | |- context [Z.compare ?a ?b] => destruct (Z.compare_spec a b)
  | H : context [Pos.compare ?a ?b] |- _ => destruct (Pos.compare_spec a b)
  | |- context [Pos.compare ?a ?b] => destruct (Pos.compare_spec a b)
  end;
  cbv beta iota delta [CompOpp] in *; try discriminate; try reflexivity.

Ltac cmp :=
  unfold ltb, leb, SFltb, SFleb, SFcompare, nonneg, finite_nonneg,
    f0, f1, f100, f0_01 in *;
  repeat match goal with
    | x : spec_float |- _ => destruct x as [[]|[]| |[] ? ?]
    end;
  cbv beta iota delta [CompOpp] in *; try discriminate; try reflexivity;
  change (Pos.compare_cont Eq) with Pos.compare in *;
  repeat cmp_step;
  try discriminate; try reflexivity;
  try (exfalso;
       repeat match goal with H : @eq bool _ _ |- _ => clear H end;
       first
         [ repeat match goal with
             | H : @eq positive _ _ |- _ => clear H
             | H : Pos.lt _ _ |- _ => clear H
             end;
           lia
         | lia ]).

Lemma ltb_irrefl x : ltb x x = false.
Proof. cmp. Qed.

Lemma ltb_asym x y : ltb x y = true -> ltb y x = false.
Proof. intros H. cmp. Qed.

Lemma ltb_trans x y z : ltb x y = true -> ltb y z = true -> ltb x z = true.
Proof. intros H1 H2. cmp. Qed.

(** [x < y <= z] gives [x < z] when [y] and [z] are numbers. *)
Lemma ltb_nlt_trans x y z :
  nonneg y = true -> nonneg z = true ->
  ltb x y = true -> ltb z y = false -> ltb x z = true.
Proof. intros Hy Hz H1 H2. cmp. Qed.

(** A threshold at most [1.0] accepts no rate of [100.0] or more. *)
Lemma threshold_below_100 c th :
  nonneg c = true -> leb th f1 = true -> ltb c f100 = false ->
  ltb c th = false.
Proof. intros Hc H1 H2. cmp. Qed.

Lemma f100_not_below th : leb th f1 = true -> ltb f100 th = false.
Proof. intros H. cmp. Qed.

(** No rate is below the threshold [0.0]. *)
Lemma not_below_zero c : nonneg c = true -> ltb c f0 = false.
Proof. intros H. cmp. Qed.

End FloatFacts.

(** ** The character error rate *)

Import Float FloatFacts.

Lemma CER_unfold t1 t2 :
  CER t1 t2 =
  x ← of_int (Z.of_nat (osa_dist t1 t2)); y ← of_int (len t1); div x y.
Proof. unfold CER. rewrite levenshtein_osa_dist. reflexivity. Qed.

Lemma CER_nonneg t1 t2 c : CER t1 t2 = Ok c -> nonneg c = true.
Proof.
  rewrite CER_unfold.
  destruct (of_int (Z.of_nat (osa_dist t1 t2))) as [x|] eqn:Hx; [|discriminate].
  destruct (of_int (len t1)) as [y|] eqn:Hy; [|discriminate].
  simpl. apply div_nonneg.
  - eapply of_int_finite; [|exact Hx]. lia.
  - eapply of_int_finite; [|exact Hy]. unfold len. lia.
Qed.

Lemma of_int_bounded n :
  0 <= n < 2 ^ 53 -> exists x, of_int n = Ok x.
Proof.
  intros Hn. destruct (decide (n = 0)) as [->|Hne].
  - eexists. reflexivity.
  - destruct (of_int_small n) as (m & e & ->); [lia|]. eauto.
Qed.

(** An empty candidate title: the division raises. *)
Lemma CER_empty t2 : len t2 < 2 ^ 53 -> CER [] t2 = Raise ZeroDivisionError.
Proof.
  intros Hb. rewrite CER_unfold. simpl osa_dist.
  destruct (of_int_bounded (Z.of_nat (length t2))) as [x ->];
    [unfold len in Hb; lia|].
  reflexivity.
Qed.

(** A non-empty candidate title has a rate. *)
Lemma CER_defined t1 t2 :
  t1 <> [] -> len t1 + len t2 < 2 ^ 53 -> exists c, CER t1 t2 = Ok c.
Proof.
  intros Hne Hb. rewrite CER_unfold. unfold len in *.
  pose proof (osa_dist_bound t1 t2) as Hd.
  destruct (of_int_bounded (Z.of_nat (osa_dist t1 t2))) as [x ->]; [lia|].
  destruct (of_int_small (Z.of_nat (length t1))) as (m & e & ->).
  { assert (length t1 <> 0%nat) by (destruct t1; simpl; congruence). lia. }
  simpl. eauto.
Qed.

(** ** The scan of [search_by_title] *)

Section ScanFacts.

Variable nfkd : list Z -> list Z.

Lemma lev_scan_cons t2 th p ps m b :
  lev_scan nfkd t2 th (p :: ps) m b =
  cer ← cer_of nfkd t2 p;
  if ltb cer f0_01 then Ok (Some p)
  else if ltb cer m
       then lev_scan nfkd t2 th ps cer (Some p)
       else lev_scan nfkd t2 th ps m b.
Proof.
  unfold cer_of. simpl.
  destruct (normalize nfkd (title p)); reflexivity.
Qed.

Lemma lev_scan_passed t2 th l1 l2 m b :
  Forall (passed nfkd t2) l1 ->
  exists m' b', lev_scan nfkd t2 th (l1 ++ l2) m b
                = lev_scan nfkd t2 th l2 m' b'.
Proof.
  intros H. revert m b. induction H as [|q l1 (c & Hc & Hlt) _ IH]; intros m b.
  - simpl. eauto.
  - simpl app. rewrite lev_scan_cons, Hc. simpl. rewrite Hlt.
    destruct (ltb c m); apply IH.
Qed.

Lemma lev_scan_early t2 th l1 p l2 m b c :
  Forall (passed nfkd t2) l1 ->
  cer_of nfkd t2 p = Ok c -> ltb c f0_01 = true ->
  lev_scan nfkd t2 th (l1 ++ p :: l2) m b = Ok (Some p).
Proof.
  intros Hl1 Hc Hlt.
  destruct (lev_scan_passed t2 th l1 (p :: l2) m b Hl1) as (m' & b' & ->).
  rewrite lev_scan_cons, Hc. simpl. rewrite Hlt. reflexivity.
Qed.

Lemma lev_scan_raise t2 th l1 p l2 m b e :
  Forall (passed nfkd t2) l1 ->
  cer_of nfkd t2 p = Raise e ->
  lev_scan nfkd t2 th (l1 ++ p :: l2) m b = Raise e.
Proof.
  intros Hl1 Hc.
  destruct (lev_scan_passed t2 th l1 (p :: l2) m b Hl1) as (m' & b' & ->).
  rewrite lev_scan_cons, Hc. reflexivity.
Qed.

(** A scan without early return: either no rate is below [min_cer] and
    the loop variables are unchanged, or [best] is the first publication
    of least rate. *)
Lemma lev_scan_best t2 th ps cs :
  Forall2 (fun p c => cer_of nfkd t2 p = Ok c) ps cs ->
  Forall (fun c => ltb c f0_01 = false) cs ->
  forall m b, nonneg m = true ->
    (lev_scan nfkd t2 th ps m b = Ok (if ltb m th then b else None) /\
     forall c, c ∈ cs -> ltb c m = false) \/
    (exists i p c,
        ps !! i = Some p /\ first_min cs i c /\ ltb c m = true /\
        lev_scan nfkd t2 th ps m b = Ok (if ltb c th then Some p else None)).
Proof.
  induction 1 as [|p c ps cs Hc Hps IH]; intros Hcs m b Hm.
  - left. split; [reflexivity|]. intros c Hin. inversion Hin.
  - apply Forall_cons in Hcs as [Hlt Hcs].
    assert (Hnn : nonneg c = true).
    { unfold cer_of in Hc. destruct (normalize nfkd (title p)); [|discriminate].
      eapply CER_nonneg. exact Hc. }
    rewrite lev_scan_cons, Hc. simpl. rewrite Hlt.
    destruct (ltb c m) eqn:Hcm.
    + destruct (IH Hcs c (Some p) Hnn) as [[-> Hall]|(i & p' & c' & Hp' & Hfm & Hlt' & ->)].
      * right. exists 0%nat, p, c. split; [reflexivity|].
        split; [|split; [exact Hcm|reflexivity]].
        split; [reflexivity|]. split; [intros j c' Hj; lia|].
        intros [|j] c' Hj; simpl in Hj.
        -- injection Hj as <-. apply ltb_irrefl.
        -- apply Hall. eapply list_elem_of_lookup_2. exact Hj.
      * right. exists (S i), p', c'. split; [exact Hp'|].
        destruct Hfm as (Hi & Hbefore & Hmin).
        split; [|split; [eapply ltb_trans; eassumption|reflexivity]].
        split; [exact Hi|]. split.
        -- intros [|j] c'' Hj Hl; simpl in Hl.
           ++ injection Hl as <-. exact Hlt'.
           ++ eapply Hbefore; [|exact Hl]. lia.
        -- intros [|j] c'' Hl; simpl in Hl.
           ++ injection Hl as <-. apply ltb_asym. exact Hlt'.
           ++ eapply Hmin. exact Hl.
    + destruct (IH Hcs m b Hm) as [[-> Hall]|(i & p' & c' & Hp' & Hfm & Hlt' & ->)].
      * left. split; [reflexivity|].
        intros c' Hin. apply elem_of_cons in Hin as [->|Hin]; [exact Hcm|].
        apply Hall. exact Hin.
      * right. exists (S i), p', c'. split; [exact Hp'|].
        destruct Hfm as (Hi & Hbefore & Hmin).
        assert (Hc'c : ltb c' c = true).
        { eapply ltb_nlt_trans; [exact Hm|exact Hnn|exact Hlt'|exact Hcm]. }
        split; [|split; [exact Hlt'|reflexivity]].
        split; [exact Hi|]. split.
        -- intros [|j] c'' Hj Hl; simpl in Hl.
           ++ injection Hl as <-. exact Hc'c.
           ++ eapply Hbefore; [|exact Hl]. lia.
        -- intros [|j] c'' Hl; simpl in Hl.
           ++ injection Hl as <-. apply ltb_asym. exact Hc'c.
           ++ eapply Hmin. exact Hl.
Qed.

(** The first publication of least rate is unique. *)
Lemma first_min_unique cs i c i' c' :
  first_min cs i c -> first_min cs i' c' -> i = i' /\ c = c'.
Proof.
  intros (Hi & Hb & Hm) (Hi' & Hb' & Hm').
  destruct (Nat.lt_trichotomy i i') as [Hlt|[->|Hlt]].
  - pose proof (Hb' i c Hlt Hi) as H1. pose proof (Hm i' c' Hi') as H2.
    congruence.
  - split; [reflexivity|congruence].
  - pose proof (Hb i' c' Hlt Hi') as H1. pose proof (Hm' i c Hi) as H2.
    congruence.
Qed.

End ScanFacts.

(** ** The normaliser *)

Lemma nfkd_latin1_ascii s :
  Forall (fun c => is_ascii c = true) s -> nfkd_latin1 s = s.
Proof.
  induction 1 as [|c s Hc _ IH]; [reflexivity|].
  unfold nfkd_latin1 in *. simpl. rewrite IH.
  unfold is_ascii in Hc. unfold decomposition.
  repeat match goal with
    | |- context [c =? ?k] => destruct (Z.eqb_spec c k); [lia|]
    end.
  reflexivity.
Qed.

Section NormaliserFacts.

Variable nfkd : list Z -> list Z.

(** The output holds ASCII letters only, of either case. *)
Lemma normalize_letters t out :
  normalize nfkd t = Ok out ->
  Forall (fun c => is_lower_letter c || is_upper_letter c = true) out.
Proof.
  unfold normalize. destruct (_un (lower t)) as [u|]; [|discriminate].
  intros [= <-]. unfold _remove_accents.
  apply Forall_forall. intros c Hc.
  apply list_elem_of_filter in Hc as [Hc _].
  unfold is_lower_letter, is_upper_letter.
  unfold ascii_letters in Hc. vm_compute in Hc.
  repeat (apply elem_of_cons in Hc as [->|Hc]; [reflexivity|]).
  inversion Hc.
Qed.

Hypothesis nfkd_ascii :
  forall s, Forall (fun c => is_ascii c = true) s -> nfkd s = s.

Lemma normalize_ascii t u :
  _un (lower t) = Ok u ->
  forallb is_ascii u = true ->
  normalize nfkd t = Ok (filter (fun x => x ∈ ascii_letters) u).
Proof.
  intros Hu Ha. unfold normalize, _remove_accents. rewrite Hu. simpl.
  rewrite nfkd_ascii; [reflexivity|].
  apply Forall_forall. intros c Hc.
  rewrite forallb_forall in Ha. apply Ha. apply list_elem_of_In. exact Hc.
Qed.

End NormaliserFacts.

(** ** The matcher *)

Section MatcherFacts.

Variable nfkd : list Z -> list Z.

Lemma cer_of_nonneg t2 p c : cer_of nfkd t2 p = Ok c -> nonneg c = true.
Proof.
  unfold cer_of. destruct (normalize nfkd (title p)); [|discriminate].
  apply CER_nonneg.
Qed.

Lemma passed_rates t2 l :
  Forall (passed nfkd t2) l ->
  exists cs, Forall2 (fun p c => cer_of nfkd t2 p = Ok c) l cs /\
             Forall (fun c => ltb c f0_01 = false) cs.
Proof.
  induction 1 as [|q l (c & Hc & Hlt) _ (cs & H2 & Hall)].
  - exists []. split; constructor.
  - exists (c :: cs). split; constructor; assumption.
Qed.

(** In approximate mode [_is_target] divides by the length of the
    normalised candidate as well. *)
Lemma is_target_empty_candidate t1 t2 n2 th :
  normalize nfkd t1 = Ok [] -> normalize nfkd t2 = Ok n2 ->
  len n2 < 2 ^ 53 ->
  _is_target nfkd t1 t2 true th = Raise ZeroDivisionError.
Proof.
  intros H1 H2 Hb. unfold _is_target. rewrite H1, H2. simpl.
  rewrite CER_empty by exact Hb. reflexivity.
Qed.

(** Exact mode of [search_by_title]: the first publication whose
    normalised title is the normalised target. *)
Lemma exact_scan_first t2 l1 p l2 :
  Forall (fun q => exists t1, normalize nfkd (title q) = Ok t1 /\ t1 <> t2) l1 ->
  normalize nfkd (title p) = Ok t2 ->
  exact_scan nfkd t2 (l1 ++ p :: l2) = Ok (Some p).
Proof.
  induction 1 as [|q l1 (t1 & Hq & Hne) _ IH]; intros Hp; simpl.
  - rewrite Hp. simpl. rewrite bool_decide_eq_true_2 by reflexivity.
    reflexivity.
  - rewrite Hq. simpl. rewrite bool_decide_eq_false_2 by exact Hne.
    apply IH. exact Hp.
Qed.

End MatcherFacts.

Lemma search_by_title_first_accept
    (nfkd : list Z -> list Z) (self : DBLPResult)
    (l1 l2 : list Publication) (p : Publication)
    (target : string) (t2 : list Z) (c th : spec_float) :
  publications self = l1 ++ p :: l2 ->
  normalize nfkd target = Ok t2 ->
  Forall (passed nfkd t2) l1 ->
  cer_of nfkd t2 p = Ok c ->
  ltb c f0_01 = true ->
  search_by_title nfkd self target true th = Ok (Some p).
Proof.
  intros Hpubs Ht2 Hl1 Hc Hlt.
  unfold search_by_title. rewrite Ht2, Hpubs. simpl.
  eapply lev_scan_early; eassumption.
Qed.

(** * The claims *)

(** C1 (as amended). In approximate mode a publication whose normalised
    title has length 0 is not skipped: when the scan reaches it, every
    earlier publication having a rate that is not below 0.01, the division
    by the length raises [ZeroDivisionError] and the search returns
    nothing.  (The target is shorter than [2^53] characters, so that
    [float] of the distance is defined.) *)
Theorem search_by_title_empty_candidate_raises
    (nfkd : list Z -> list Z) (self : DBLPResult)
    (l1 l2 : list Publication) (p : Publication)
    (target : string) (t2 : list Z) (th : spec_float) :
  publications self = l1 ++ p :: l2 ->
  normalize nfkd target = Ok t2 ->
  len t2 < 2 ^ 53 ->
  Forall (passed nfkd t2) l1 ->
  normalize nfkd (title p) = Ok [] ->
  search_by_title nfkd self target true th = Raise ZeroDivisionError.
Proof.
  intros Hpubs Ht2 Hb Hl1 Hp.
  unfold search_by_title. rewrite Ht2, Hpubs. simpl.
  apply lev_scan_raise; [exact Hl1|].
  unfold cer_of. rewrite Hp. simpl. apply CER_empty. exact Hb.
Qed.

Lemma search_by_title_empty_candidate_raises_witness :
  normalize nfkd_latin1 "123" = Ok [] /\
  search_by_title nfkd_latin1
    (result_of_titles ["Deep Learnin"; "123"; "Deep Learning"]%string)
    "Deep Learning" true f0_2 = Raise ZeroDivisionError.
Proof.
  split; [vm_compute; reflexivity|].
  apply (search_by_title_empty_candidate_raises nfkd_latin1 _
           [Publication_init "" None "Deep Learnin" []]
           [Publication_init "" None "Deep Learning" []]
           (Publication_init "" None "123" [])
           "Deep Learning" (codes "deeplearning") f0_2).
  - reflexivity.
  - vm_compute. reflexivity.
  - vm_compute. reflexivity.
  - constructor; [|constructor].
    exists (S754_finite false 6550690367084358 (-56)).
    split; vm_compute; reflexivity.
  - vm_compute. reflexivity.
Defined.

(** C1, the claim as stated fails: the only candidate normalises to the
    empty string and the search raises instead of reporting no match. *)
Lemma empty_candidate_not_skipped :
  normalize nfkd_latin1 "123" = Ok [] /\
  search_by_title nfkd_latin1 (result_of_titles ["123"%string]) "abc" true f0_2
  = Raise ZeroDivisionError.
Proof. split; vm_compute; reflexivity. Qed.

(** C2 (as amended). [_levenshtein(a, b)] returns, for every pair of
    strings, the restricted Damerau-Levenshtein distance (optimal string
    alignment): the least number of insertions, deletions, substitutions
    and exchanges of two adjacent characters in a script that edits no
    exchanged pair again. *)
Theorem levenshtein_restricted_distance (a b : list Z) :
  exists d : nat,
    _levenshtein a b = Ok (Z.of_nat d) /\
    osa a b d /\
    forall n, osa a b n -> (d <= n)%nat.
Proof.
  exists (osa_dist a b). split; [apply levenshtein_osa_dist|].
  split; [apply osa_dist_sound|apply osa_dist_min].
Qed.

(** C2, the claim as stated fails: "ca" becomes "abc" in two edits
    (exchange, then insert), and [_levenshtein] returns 3. *)
Lemma levenshtein_not_damerau_levenshtein :
  exists d, _levenshtein (codes "ca") (codes "abc") = Ok d /\
            ~ damerau_levenshtein (codes "ca") (codes "abc") d.
Proof.
  exists 3. split; [vm_compute; reflexivity|].
  intros [_ Hmin].
  assert (H : edits 2 (codes "ca") (codes "abc")).
  { change (codes "ca") with ([] ++ [99; 97]).
    change (codes "abc") with ([97] ++ 98 :: [99]).
    eapply edits_S; [apply (edit_swap [] 99 97 [])|].
    eapply edits_S; [apply (edit_ins [97] 98 [99])|].
    apply edits_0. }
  specialize (Hmin _ H). lia.
Qed.

(** C3 (as amended). In approximate mode the search returns the first
    publication whose rate is below 0.01, whatever the threshold and
    whatever follows it in the list, provided every earlier publication has
    a rate (its normalised title is not empty) and that rate is not below
    0.01. *)
Theorem search_by_title_first_good_enough
    (nfkd : list Z -> list Z) (self : DBLPResult)
    (l1 l2 : list Publication) (p : Publication)
    (target : string) (t2 : list Z) (c th : spec_float) :
  publications self = l1 ++ p :: l2 ->
  normalize nfkd target = Ok t2 ->
  Forall (passed nfkd t2) l1 ->
  cer_of nfkd t2 p = Ok c ->
  ltb c f0_01 = true ->
  search_by_title nfkd self target true th = Ok (Some p).
Proof.
  intros Hpubs Ht2 Hl1 Hc Hlt.
  eapply search_by_title_first_accept; eassumption.
Qed.

Lemma search_by_title_first_good_enough_witness :
  search_by_title nfkd_latin1
    (result_of_titles
       ["Deep Learning Method"; "Deep Learning Methods!";
        "deep learning methods"]%string)
    "Deep Learning Methods" true f0
  = Ok (Some (Publication_init "" None "Deep Learning Methods!" [])).
Proof.
  apply (search_by_title_first_good_enough nfkd_latin1 _
           [Publication_init "" None "Deep Learning Method" []]
           [Publication_init "" None "deep learning methods" []]
           (Publication_init "" None "Deep Learning Methods!" [])
           "Deep Learning Methods" (codes "deeplearningmethods") f0 f0).
  - reflexivity.
  - vm_compute. reflexivity.
  - constructor; [|constructor].
    exists (S754_finite false 8006399337547548 (-57)).
    split; vm_compute; reflexivity.
  - vm_compute. reflexivity.
  - vm_compute. reflexivity.
Defined.

(** C3, the claim as stated fails: the second publication has rate 0,
    the first one has no rate, and the search raises. *)
Lemma first_good_enough_after_empty_candidate :
  let self := result_of_titles ["123"; "Deep Learning"]%string in
  let t2 := codes "deeplearning" in
  normalize nfkd_latin1 "Deep Learning" = Ok t2 /\
  cer_of nfkd_latin1 t2 (Publication_init "" None "123" [])
  = Raise ZeroDivisionError /\
  cer_of nfkd_latin1 t2 (Publication_init "" None "Deep Learning" []) = Ok f0 /\
  ltb f0 f0_01 = true /\
  search_by_title nfkd_latin1 self "Deep Learning" true f0_2
  = Raise ZeroDivisionError.
Proof. repeat split; vm_compute; reflexivity. Qed.

(** C4 (as amended). In approximate mode, when every publication has a
    rate (no normalised title is empty), no rate is below 0.01 and the
    threshold is at most 1.0, the search returns the first publication of
    least rate if and only if that rate is strictly below the threshold,
    and [None] otherwise. *)
Theorem search_by_title_best_candidate
    (nfkd : list Z -> list Z) (self : DBLPResult)
    (target : string) (t2 : list Z) (cs : list spec_float) (th : spec_float) :
  normalize nfkd target = Ok t2 ->
  Forall2 (fun p c => cer_of nfkd t2 p = Ok c) (publications self) cs ->
  Forall (fun c => ltb c f0_01 = false) cs ->
  leb th f1 = true ->
  exists r,
    search_by_title nfkd self target true th = Ok r /\
    forall p,
      r = Some p <->
      exists i c,
        publications self !! i = Some p /\ first_min cs i c /\ ltb c th = true.
Proof.
  intros Ht2 Hcs Hpass Hth.
  unfold search_by_title. rewrite Ht2. simpl.
  destruct (lev_scan_best nfkd t2 th _ _ Hcs Hpass f100 None eq_refl)
    as [[-> Hall]|(i & p & c & Hp & Hfm & Hlt & ->)].
  - exists None. split; [destruct (ltb f100 th); reflexivity|].
    intros p. split; [discriminate|].
    intros (i & c & Hp & (Hi & _) & Hlt). exfalso.
    assert (Hin : c ∈ cs) by (eapply list_elem_of_lookup_2; exact Hi).
    destruct (Forall2_lookup_r _ _ _ _ _ Hcs Hi) as (q & _ & Hq).
    pose proof (threshold_below_100 c th (cer_of_nonneg nfkd t2 q c Hq)
                  Hth (Hall c Hin)).
    congruence.
  - eexists. split; [reflexivity|].
    intros p'. split.
    + destruct (ltb c th) eqn:Hcth; [|discriminate].
      intros [= <-]. exists i, c. auto.
    + intros (i' & c' & Hp' & Hfm' & Hlt').
      destruct (first_min_unique _ _ _ _ _ Hfm Hfm') as [<- <-].
      rewrite Hlt'. congruence.
Qed.

Lemma search_by_title_best_candidate_witness :
  exists r,
    search_by_title nfkd_latin1
      (result_of_titles
         ["Deep Learning Method"; "Deep Learning Methodes"]%string)
      "Deep Learning Methods" true f0_2 = Ok r /\
    forall p,
      r = Some p <->
      exists i c,
        publications
          (result_of_titles
             ["Deep Learning Method"; "Deep Learning Methodes"]%string)
          !! i = Some p /\
        first_min [S754_finite false 8006399337547548 (-57);
                   S754_finite false 7205759403792794 (-57)] i c /\
        ltb c f0_2 = true.
Proof.
  apply (search_by_title_best_candidate nfkd_latin1 _
           "Deep Learning Methods" (codes "deeplearningmethods")).
  - vm_compute. reflexivity.
  - repeat constructor; vm_compute; reflexivity.
  - repeat constructor.
  - vm_compute. reflexivity.
Defined.

(** C4, the claim as stated fails: no candidate is accepted early, the
    first one has a rate below the threshold, and the search raises on
    the second one instead of returning the first. *)
Lemma best_candidate_with_empty_candidate :
  let t2 := codes "deeplearning" in
  let c := S754_finite false 6550690367084358 (-56) in
  normalize nfkd_latin1 "Deep Learning" = Ok t2 /\
  cer_of nfkd_latin1 t2 (Publication_init "" None "Deep Learnin" []) = Ok c /\
  ltb c f0_01 = false /\
  ltb c f0_2 = true /\
  normalize nfkd_latin1 "123" = Ok [] /\
  search_by_title nfkd_latin1
    (result_of_titles ["Deep Learnin"; "123"]%string) "Deep Learning" true f0_2
  = Raise ZeroDivisionError.
Proof. repeat split; vm_compute; reflexivity. Qed.

(** C5, the code at the failing input: the upper-case accented letter of
    [École] passes [lower()] unchanged inside its UTF-8 bytes, and NFKD
    then turns it into the upper-case letter [E], which the filter
    keeps. *)
Theorem normalize_upper_case_survives :
  normalize nfkd_latin1 "École" = Ok (codes "Ecole") /\
  existsb is_upper_letter (codes "Ecole") = true /\
  _is_target nfkd_latin1 "École" "école" false f0_2 = Ok false.
Proof. repeat split; vm_compute; reflexivity. Qed.

(** C6 (as amended). Normalising [Gödel, Kurt (1931)!] yields
    [godelkurt]: the decomposition turns the accented letter into its base
    letter and a combining mark, and the filter keeps the base letter. *)
Theorem normalize_goedel :
  normalize nfkd_latin1 "Gödel, Kurt (1931)!" = Ok (codes "godelkurt").
Proof. vm_compute. reflexivity. Qed.

(** C6, the claim as stated fails. *)
Lemma normalize_goedel_not_gdelkurt :
  normalize nfkd_latin1 "Gödel, Kurt (1931)!" <> Ok (codes "gdelkurt").
Proof. vm_compute. discriminate. Qed.

(** C7, the code at the failing input: normalising [École] gives
    [Ecole], and normalising that again gives [ecole]. *)
Theorem normalize_not_idempotent :
  normalize nfkd_latin1 "École" = Ok (codes "Ecole") /\
  normalize nfkd_latin1 (_u8 (codes "Ecole")) = Ok (codes "ecole").
Proof. split; vm_compute; reflexivity. Qed.

(** C8. In exact mode [_is_target] reports a match if and only if the two
    normalised titles are identical; "Deep Learning" matches
    "deep learning". *)
Theorem is_target_exact
    (nfkd : list Z -> list Z) (t1 t2 : string) (n1 n2 : list Z)
    (th : spec_float) :
  (forall s, Forall (fun c => is_ascii c = true) s -> nfkd s = s) ->
  normalize nfkd t1 = Ok n1 ->
  normalize nfkd t2 = Ok n2 ->
  (_is_target nfkd t1 t2 false th = Ok true <-> n1 = n2) /\
  (_is_target nfkd t1 t2 false th = Ok false <-> n1 <> n2) /\
  _is_target nfkd "Deep Learning" "deep learning" false th = Ok true.
Proof.
  intros Hascii H1 H2.
  assert (Hm : _is_target nfkd t1 t2 false th = Ok (bool_decide (n1 = n2))).
  { unfold _is_target. rewrite H1, H2. reflexivity. }
  rewrite Hm. repeat split.
  - intros [= H]. apply bool_decide_eq_true_1 in H. exact H.
  - intros ->. rewrite bool_decide_eq_true_2; reflexivity.
  - intros [= H]. apply bool_decide_eq_false_1 in H. exact H.
  - intros H. rewrite bool_decide_eq_false_2; [reflexivity|exact H].
  - unfold _is_target.
    rewrite (normalize_ascii nfkd Hascii "Deep Learning"
               (codes "deep learning")) by (vm_compute; reflexivity).
    rewrite (normalize_ascii nfkd Hascii "deep learning"
               (codes "deep learning")) by (vm_compute; reflexivity).
    reflexivity.
Qed.

Lemma is_target_exact_witness :
  (_is_target nfkd_latin1 "Deep Learning" "deep learning" false f0_2 = Ok true <->
   codes "deeplearning" = codes "deeplearning") /\
  (_is_target nfkd_latin1 "Deep Learning" "deep learning" false f0_2 = Ok false <->
   codes "deeplearning" <> codes "deeplearning") /\
  _is_target nfkd_latin1 "Deep Learning" "deep learning" false f0_2 = Ok true.
Proof.
  apply (is_target_exact nfkd_latin1 "Deep Learning" "deep learning").
  - exact nfkd_latin1_ascii.
  - vm_compute. reflexivity.
  - vm_compute. reflexivity.
Defined.

(** C9. The edit distance is symmetric. *)
Theorem levenshtein_symmetric (a b : list Z) :
  _levenshtein a b = _levenshtein b a.
Proof. rewrite !levenshtein_osa_dist, (osa_dist_sym a b). reflexivity. Qed.

(** C10. The early acceptance does not depend on the threshold: for every
    threshold in [0.0, 1.0], and so for 0.0, the approximate search returns
    the first publication whose rate is below 0.01 when all earlier
    publications have non-empty normalised titles; with the threshold 0.0
    the comparison of the best candidate accepts nothing, as the search
    over the earlier publications alone shows.  (Titles are shorter than
    [2^53] characters, so that [float] of a length is exact.) *)
Theorem early_accept_any_threshold
    (nfkd : list Z -> list Z) (self : DBLPResult)
    (l1 l2 : list Publication) (p : Publication)
    (target : string) (t2 : list Z) (th : spec_float) :
  publications self = l1 ++ p :: l2 ->
  normalize nfkd target = Ok t2 ->
  leb f0 th = true -> leb th f1 = true ->
  Forall (fun q => exists t1,
              normalize nfkd (title q) = Ok t1 /\ t1 <> [] /\
              len t1 + len t2 < 2 ^ 53 /\
              forall c, CER t1 t2 = Ok c -> ltb c f0_01 = false) l1 ->
  (exists t1 c,
      normalize nfkd (title p) = Ok t1 /\ CER t1 t2 = Ok c /\
      ltb c f0_01 = true) ->
  search_by_title nfkd self target true th = Ok (Some p) /\
  search_by_title nfkd self target true f0 = Ok (Some p) /\
  search_by_title nfkd (with_publications self l1) target true f0 = Ok None.
Proof.
  intros Hpubs Ht2 _ _ Hl1 (t1 & c & Hn & Hc & Hlt).
  assert (Hpass : Forall (passed nfkd t2) l1).
  { eapply Forall_impl; [exact Hl1|].
    intros q (u & Hu & Hne & Hb & Hnot).
    destruct (CER_defined u t2 Hne Hb) as [c' Hc'].
    exists c'. split; [|apply Hnot; exact Hc'].
    unfold cer_of. rewrite Hu. exact Hc'. }
  assert (Hp : cer_of nfkd t2 p = Ok c) by (unfold cer_of; rewrite Hn; exact Hc).
  split; [|split].
  - eapply search_by_title_first_accept; eassumption.
  - eapply search_by_title_first_accept; eassumption.
  - unfold search_by_title. rewrite Ht2. simpl.
    destruct (passed_rates nfkd t2 l1 Hpass) as (cs & Hcs & Hall).
    destruct (lev_scan_best nfkd t2 f0 _ _ Hcs Hall f100 None eq_refl)
      as [[-> _]|(i & q & c' & Hq & (Hi & _) & _ & ->)]; [reflexivity|].
    destruct (Forall2_lookup_r _ _ _ _ _ Hcs Hi) as (q' & _ & Hq').
    rewrite (not_below_zero c' (cer_of_nonneg nfkd t2 q' c' Hq')).
    reflexivity.
Qed.

Lemma early_accept_any_threshold_witness :
  let self := result_of_titles
                ["Deep Learning Method"; "Deep Learning Methods";
                 "Unrelated Title"]%string in
  let p := Publication_init "" None "Deep Learning Methods" [] in
  search_by_title nfkd_latin1 self "Deep Learning Methods" true f0_2
  = Ok (Some p) /\
  search_by_title nfkd_latin1 self "Deep Learning Methods" true f0
  = Ok (Some p) /\
  search_by_title nfkd_latin1
    (with_publications self [Publication_init "" None "Deep Learning Method" []])
    "Deep Learning Methods" true f0 = Ok None.
Proof.
  apply (early_accept_any_threshold nfkd_latin1 _
           [Publication_init "" None "Deep Learning Method" []]
           [Publication_init "" None "Unrelated Title" []]
           (Publication_init "" None "Deep Learning Methods" [])
           "Deep Learning Methods" (codes "deeplearningmethods") f0_2).
  - reflexivity.
  - vm_compute. reflexivity.
  - vm_compute. reflexivity.
  - vm_compute. reflexivity.
  - constructor; [|constructor].
    exists (codes "deeplearningmethod").
    split; [vm_compute; reflexivity|].
    split; [discriminate|].
    split; [vm_compute; reflexivity|].
    intros c Hc.
    assert (Hv : CER (codes "deeplearningmethod") (codes "deeplearningmethods")
                 = Ok (S754_finite false 8006399337547548 (-57)))
      by (vm_compute; reflexivity).
    rewrite Hv in Hc. injection Hc as <-. vm_compute. reflexivity.
  - exists (codes "deeplearningmethods"), f0.
    repeat split; vm_compute; reflexivity.
Defined.

(** * Further properties *)

(** ** The edit distance *)

Lemma osa_refl l : osa l l 0.
Proof.
  induction l as [|x l IH]; [constructor|].
  eapply osa_cost; [apply (osa_sub x x), IH|].
  rewrite subst_cost_refl. reflexivity.
Qed.

Lemma osa_app_l l a b n : osa a b n -> osa (l ++ a) (l ++ b) n.
Proof.
  intros H. induction l as [|x l IH]; [exact H|]. simpl.
  eapply osa_cost; [apply (osa_sub x x), IH|].
  rewrite subst_cost_refl. reflexivity.
Qed.

Lemma osa_length a b n :
  osa a b n ->
  (length a <= length b + n)%nat /\ (length b <= length a + n)%nat.
Proof. induction 1; simpl; lia. Qed.

Lemma osa_zero a b n : osa a b n -> n = 0%nat -> a = b.
Proof.
  induction 1 as [|x a b n H IH|y a b n H IH|x y a b n H IH|x y a b n H IH];
    intros Hn; try discriminate; [reflexivity|].
  unfold subst_cost in Hn. destruct (Z.eqb_spec x y) as [->|]; [|discriminate].
  rewrite IH by exact Hn. reflexivity.
Qed.

Lemma osa_dist_max a b :
  (osa_dist a b <= Nat.max (length a) (length b))%nat.
Proof.
  revert b. induction a as [|x a IH]; intros b; [simpl; lia|].
  destruct b as [|y b]; [rewrite osa_dist_nil_r; simpl; lia|].
  pose proof (osa_dist_cons_le x a y b) as (_ & _ & H).
  pose proof (IH b). pose proof (subst_cost_le x y). simpl length. lia.
Qed.

Lemma edit1_osa a b : edit1 a b -> exists n, (n <= 1)%nat /\ osa a b n.
Proof.
  intros [l1 c l2|l1 c l2|l1 c c' l2|l1 c c' l2].
  - exists 1%nat. split; [lia|]. apply osa_app_l, osa_ins, osa_refl.
  - exists 1%nat. split; [lia|]. apply osa_app_l, osa_del, osa_refl.
  - exists (subst_cost c c' + 0)%nat. split; [pose proof (subst_cost_le c c'); lia|].
    apply osa_app_l, osa_sub, osa_refl.
  - exists 1%nat. split; [lia|]. apply osa_app_l, osa_swap, osa_refl.
Qed.

Lemma edit1_cons x a b : edit1 a b -> edit1 (x :: a) (x :: b).
Proof.
  intros [l1 c l2|l1 c l2|l1 c c' l2|l1 c c' l2].
  - apply (edit_ins (x :: l1)).
  - apply (edit_del (x :: l1)).
  - apply (edit_sub (x :: l1)).
  - apply (edit_swap (x :: l1)).
Qed.

Lemma edits_cons x n a b : edits n a b -> edits n (x :: a) (x :: b).
Proof.
  induction 1 as [a|n a b c H1 _ IH]; [constructor|].
  eapply edits_S; [apply edit1_cons, H1|exact IH].
Qed.

Lemma osa_edits a b n : osa a b n -> edits n a b.
Proof.
  induction 1 as [|x a b n H IH|y a b n H IH|x y a b n H IH|x y a b n H IH].
  - constructor.
  - eapply edits_S; [apply (edit_del [] x a)|exact IH].
  - eapply edits_S; [apply (edit_ins [] y a)|]. apply edits_cons, IH.
  - unfold subst_cost. destruct (Z.eqb_spec x y) as [->|Hne]; simpl.
    + apply edits_cons, IH.
    + eapply edits_S; [apply (edit_sub [] x y a)|]. apply edits_cons, IH.
  - eapply edits_S; [apply (edit_swap [] x y a)|].
    apply edits_cons, edits_cons, IH.
Qed.

(** X1. [_levenshtein] never raises: every key it reads from the table
    was written before.  Its result lies between the difference of the
    two lengths and the larger of them. *)
Theorem levenshtein_total_bounds (a b : list Z) :
  exists d,
    _levenshtein a b = Ok d /\
    Z.abs (len a - len b) <= d <= Z.max (len a) (len b).
Proof.
  exists (Z.of_nat (osa_dist a b)). split; [apply levenshtein_osa_dist|].
  pose proof (osa_length a b _ (osa_dist_sound a b)).
  pose proof (osa_dist_max a b). unfold len. lia.
Qed.

(** X2. The distance is 0 exactly between equal strings. *)
Theorem levenshtein_zero_iff (a b : list Z) :
  _levenshtein a b = Ok 0 <-> a = b.
Proof.
  rewrite levenshtein_osa_dist. split.
  - intros [= H]. apply (osa_zero a b _ (osa_dist_sound a b)). lia.
  - intros ->. f_equal.
    pose proof (osa_dist_min b b 0 (osa_refl b)). lia.
Qed.

(** X3. Against the empty string the distance is the length of the other
    string: the double loop does not run and the answer is read from
    row or column [-1]. *)
Theorem levenshtein_empty (s : list Z) :
  _levenshtein [] s = Ok (len s) /\ _levenshtein s [] = Ok (len s).
Proof.
  rewrite !levenshtein_osa_dist, osa_dist_nil_r. split; reflexivity.
Qed.

(** X4. Two strings that differ by one insertion, deletion, substitution
    or exchange of adjacent characters, anywhere in the string, are at
    distance at most 1. *)
Theorem levenshtein_one_edit (a b : list Z) :
  edit1 a b -> exists d, _levenshtein a b = Ok d /\ 0 <= d <= 1.
Proof.
  intros H. exists (Z.of_nat (osa_dist a b)).
  split; [apply levenshtein_osa_dist|].
  destruct (edit1_osa a b H) as (n & Hn & Hosa).
  pose proof (osa_dist_min a b n Hosa). lia.
Qed.

Lemma levenshtein_one_edit_witness :
  edit1 (codes "neuralnetworks") (codes "neuralnetwroks") /\
  exists d, _levenshtein (codes "neuralnetworks") (codes "neuralnetwroks") = Ok d /\
            0 <= d <= 1.
Proof.
  assert (H : edit1 (codes "neuralnetworks") (codes "neuralnetwroks")).
  { change (codes "neuralnetworks")
      with (codes "neuralnetw" ++ 111 :: 114 :: codes "ks").
    change (codes "neuralnetwroks")
      with (codes "neuralnetw" ++ 114 :: 111 :: codes "ks").
    apply edit_swap. }
  split; [exact H|]. apply (levenshtein_one_edit _ _ H).
Defined.

(** X5. The distance returned is the length of a chain of single edits
    that turns the first string into the second: it is never below the
    unrestricted Damerau-Levenshtein distance. *)
Theorem levenshtein_edit_chain (a b : list Z) :
  exists n, _levenshtein a b = Ok (Z.of_nat n) /\ edits n a b.
Proof.
  exists (osa_dist a b). split; [apply levenshtein_osa_dist|].
  apply osa_edits, osa_dist_sound.
Qed.

(** ** Encoding and decoding *)

Lemma bytes_of_str_of bs :
  Forall (fun b => 0 <= b < 256) bs -> bytes_of (str_of bs) = bs.
Proof.
  intros H. unfold bytes_of, str_of.
  rewrite list_ascii_of_string_of_list_ascii, map_map.
  induction H as [|b bs Hb _ IH]; [reflexivity|]. simpl. rewrite IH. f_equal.
  rewrite N_ascii_embedding by lia. lia.
Qed.

Lemma bytes_of_range s : Forall (fun b => 0 <= b < 256) (bytes_of s).
Proof.
  unfold bytes_of. apply Forall_forall. intros b Hb.
  apply list_elem_of_fmap in Hb as (c & -> & _).
  pose proof (N_ascii_bounded c). lia.
Qed.








(** ** The normaliser on ASCII text *)

Lemma ascii_letters_spec x :
  x ∈ ascii_letters <-> is_lower_letter x || is_upper_letter x = true.
Proof.
  change ascii_letters with (seqZ 97 26 ++ seqZ 65 26).
  rewrite elem_of_app, !elem_of_seqZ.
  unfold is_lower_letter, is_upper_letter.
  rewrite orb_true_iff, !andb_true_iff, !Z.leb_le. lia.
Qed.

Lemma utf8_decode_ascii bs :
  Forall (fun b => 0 <= b < 128) bs -> utf8_decode bs = Ok bs.
Proof.
  induction 1 as [|b bs Hb _ IH]; [reflexivity|].
  simpl. replace (b <? 128) with true by lia. rewrite IH. reflexivity.
Qed.

Lemma utf8_encode_ascii s :
  Forall (fun c => 0 <= c < 128) s -> flat_map utf8_encode1 s = s.
Proof.
  induction 1 as [|c s Hc _ IH]; [reflexivity|].
  simpl. rewrite IH. unfold utf8_encode1.
  replace (c <? 128) with true by lia. reflexivity.
Qed.

Lemma bytes_of_lower t : bytes_of (lower t) = map lower_byte (bytes_of t).
Proof.
  unfold lower. apply bytes_of_str_of.
  apply Forall_fmap. eapply Forall_impl; [apply bytes_of_range|].
  intros b Hb. simpl in *. unfold lower_byte.
  destruct (Z.leb_spec 65 b), (Z.leb_spec b 90); simpl; lia.
Qed.

Lemma lower_byte_letter b :
  lower_byte b ∈ ascii_letters <->
  is_lower_letter b || is_upper_letter b = true.
Proof.
  rewrite ascii_letters_spec. unfold lower_byte, is_lower_letter, is_upper_letter.
  destruct (Z.leb_spec 65 b), (Z.leb_spec b 90); simpl;
    rewrite !orb_true_iff, !andb_true_iff, !Z.leb_le; lia.
Qed.

Lemma filter_letters_lower l :
  filter (fun x => x ∈ ascii_letters) (map lower_byte l) =
  map lower_byte
    (filter (fun b => is_lower_letter b || is_upper_letter b = true) l).
Proof.
  induction l as [|b l IH]; [reflexivity|].
  simpl map. rewrite !filter_cons, IH.
  destruct (decide (lower_byte b ∈ ascii_letters)) as [Hin|Hin];
    destruct (decide (is_lower_letter b || is_upper_letter b = true)) as [Hl|Hl];
    try reflexivity; rewrite lower_byte_letter in Hin; contradiction.
Qed.

Section NormaliserAscii.

Variable nfkd : list Z -> list Z.

Hypothesis nfkd_ascii :
  forall s, Forall (fun c => is_ascii c = true) s -> nfkd s = s.

Lemma normalize_ascii_bytes t :
  Forall (fun b => b < 128) (bytes_of t) ->
  normalize nfkd t =
  Ok (map lower_byte
        (filter (fun b => is_lower_letter b || is_upper_letter b = true)
           (bytes_of t))).
Proof.
  intros Ht.
  assert (Hl : Forall (fun b => 0 <= b < 128) (map lower_byte (bytes_of t))).
  { apply Forall_fmap.
    pose proof (bytes_of_range t) as Hr.
    apply Forall_forall. intros b Hb. simpl.
    rewrite Forall_forall in Ht, Hr.
    specialize (Ht b Hb). specialize (Hr b Hb).
    unfold lower_byte.
    destruct (Z.leb_spec 65 b), (Z.leb_spec b 90); simpl; lia. }
  rewrite <- filter_letters_lower.
  apply normalize_ascii; [exact nfkd_ascii| |].
  - unfold _un. rewrite bytes_of_lower. apply utf8_decode_ascii, Hl.
  - apply forallb_forall. intros b Hb. apply list_elem_of_In in Hb.
    rewrite Forall_forall in Hl. specialize (Hl b Hb).
    unfold is_ascii. lia.
Qed.

Lemma normalize_lower_fixed out :
  Forall (fun c => is_lower_letter c = true) out ->
  normalize nfkd (_u8 out) = Ok out.
Proof.
  intros Hout.
  assert (Hr : Forall (fun c => 97 <= c <= 122) out).
  { eapply Forall_impl; [exact Hout|]. intros c Hc. simpl in Hc.
    unfold is_lower_letter in Hc. lia. }
  assert (Hf : map lower_byte
                 (filter (fun b => is_lower_letter b || is_upper_letter b = true)
                    out) = out).
  { clear Hr. induction Hout as [|c out Hc _ IH]; [reflexivity|].
    rewrite filter_cons.
    destruct (decide (is_lower_letter c || is_upper_letter c = true)) as [_|Hn].
    - simpl. rewrite IH. f_equal.
      unfold lower_byte, is_lower_letter in *.
      replace ((65 <=? c) && (c <=? 90)) with false by lia. reflexivity.
    - rewrite Hc in Hn. contradiction. }
  assert (Hb : bytes_of (_u8 out) = out).
  { unfold _u8. rewrite utf8_encode_ascii.
    - apply bytes_of_str_of. eapply Forall_impl; [exact Hr|]. simpl. lia.
    - eapply Forall_impl; [exact Hr|]. simpl. lia. }
  rewrite normalize_ascii_bytes; rewrite Hb.
  - rewrite Hf. reflexivity.
  - eapply Forall_impl; [exact Hr|]. simpl. lia.
Qed.

End NormaliserAscii.

(** X7. Whatever the title and the decomposition, a normalised title
    holds ASCII letters only: no space, digit, punctuation or combining
    mark passes the filter. *)
Theorem normalize_only_letters
    (nfkd : list Z -> list Z) (t : string) (out : list Z) :
  normalize nfkd t = Ok out ->
  Forall (fun c => 65 <= c <= 90 \/ 97 <= c <= 122) out.
Proof.
  intros H. eapply Forall_impl; [apply (normalize_letters nfkd t out H)|].
  intros c Hc. simpl in Hc. unfold is_lower_letter, is_upper_letter in Hc. lia.
Qed.

Lemma normalize_only_letters_witness :
  normalize nfkd_latin1 "Gödel, Kurt (1931)!" = Ok (codes "godelkurt") /\
  Forall (fun c => 65 <= c <= 90 \/ 97 <= c <= 122) (codes "godelkurt").
Proof.
  assert (H : normalize nfkd_latin1 "Gödel, Kurt (1931)!"
              = Ok (codes "godelkurt")) by (vm_compute; reflexivity).
  split; [exact H|]. apply (normalize_only_letters _ _ _ H).
Defined.

(** X8. On a title of ASCII bytes the normalisation never raises and
    returns the letters of the title, in order and in lower case. *)
Theorem normalize_ascii_title (nfkd : list Z -> list Z) (t : string) :
  (forall s, Forall (fun c => is_ascii c = true) s -> nfkd s = s) ->
  Forall (fun b => b < 128) (bytes_of t) ->
  normalize nfkd t =
  Ok (map lower_byte
        (filter (fun b => is_lower_letter b || is_upper_letter b = true)
           (bytes_of t))) /\
  forall out, normalize nfkd t = Ok out ->
              Forall (fun c => 97 <= c <= 122) out.
Proof.
  intros Hn Ht. pose proof (normalize_ascii_bytes nfkd Hn t Ht) as H.
  split; [exact H|]. intros out Hout. rewrite H in Hout. injection Hout as <-.
  apply Forall_fmap, Forall_forall. intros b Hb. simpl.
  apply list_elem_of_filter in Hb as [Hb _].
  unfold lower_byte, is_lower_letter, is_upper_letter in *.
  destruct (Z.leb_spec 65 b), (Z.leb_spec b 90); simpl in *; lia.
Qed.

Lemma normalize_ascii_title_witness :
  normalize nfkd_latin1 "Deep Learning, 2nd ed." =
  Ok (map lower_byte
        (filter (fun b => is_lower_letter b || is_upper_letter b = true)
           (bytes_of "Deep Learning, 2nd ed."))) /\
  forall out, normalize nfkd_latin1 "Deep Learning, 2nd ed." = Ok out ->
              Forall (fun c => 97 <= c <= 122) out.
Proof.
  apply (normalize_ascii_title nfkd_latin1 "Deep Learning, 2nd ed.").
  - exact nfkd_latin1_ascii.
  - vm_compute. repeat constructor.
Defined.

(** X9. Normalising again changes nothing when the first result has no
    upper-case letter, which is the case for every ASCII title. *)
Theorem normalize_idempotent_without_upper
    (nfkd : list Z -> list Z) (t : string) (out : list Z) :
  (forall s, Forall (fun c => is_ascii c = true) s -> nfkd s = s) ->
  normalize nfkd t = Ok out ->
  Forall (fun c => is_upper_letter c = false) out ->
  normalize nfkd (_u8 out) = Ok out.
Proof.
  intros Hn Hout Hup. apply normalize_lower_fixed; [exact Hn|].
  pose proof (normalize_letters nfkd t out Hout) as Hl.
  rewrite Forall_forall in *. intros c Hc.
  specialize (Hl c Hc). specialize (Hup c Hc). simpl in *.
  rewrite Hup, orb_false_r in Hl. exact Hl.
Qed.

Lemma normalize_idempotent_without_upper_witness :
  normalize nfkd_latin1 "Gödel, Kurt (1931)!" = Ok (codes "godelkurt") /\
  normalize nfkd_latin1 (_u8 (codes "godelkurt")) = Ok (codes "godelkurt").
Proof.
  assert (H : normalize nfkd_latin1 "Gödel, Kurt (1931)!"
              = Ok (codes "godelkurt")) by (vm_compute; reflexivity).
  split; [exact H|].
  apply (normalize_idempotent_without_upper nfkd_latin1 _ _
           nfkd_latin1_ascii H).
  vm_compute. repeat constructor.
Defined.

(** ** The matcher, further *)

Lemma ltb_leb_trans x y z :
  ltb x y = true -> leb y z = true -> ltb x z = true.
Proof. intros H1 H2. cmp. Qed.

Lemma CER_same t :
  t <> [] -> len t < 2 ^ 53 -> CER t t = Ok f0.
Proof.
  intros Hne Hb. rewrite CER_unfold.
  assert (osa_dist t t = 0%nat) as ->.
  { pose proof (osa_dist_min t t 0 (osa_refl t)). lia. }
  destruct (of_int_small (len t)) as (m & e & ->).
  { unfold len in *. assert (length t <> 0%nat) by (destruct t; simpl; congruence).
    lia. }
  reflexivity.
Qed.

Section MatcherMore.

Variable nfkd : list Z -> list Z.

Lemma exact_scan_spec t2 ps ns :
  Forall2 (fun p n => normalize nfkd (title p) = Ok n) ps ns ->
  exists r,
    exact_scan nfkd t2 ps = Ok r /\
    forall p,
      r = Some p <->
      exists i,
        ps !! i = Some p /\ ns !! i = Some t2 /\
        forall j n, (j < i)%nat -> ns !! j = Some n -> n <> t2.
Proof.
  induction 1 as [|q n ps ns Hq _ (r & Hr & IH)].
  - exists None. split; [reflexivity|]. intros p. split; [discriminate|].
    intros (i & Hi & _). rewrite lookup_nil in Hi. discriminate.
  - simpl. rewrite Hq. simpl.
    destruct (decide (n = t2)) as [->|Hne].
    + rewrite bool_decide_eq_true_2 by reflexivity.
      exists (Some q). split; [reflexivity|]. intros p. split.
      * intros [= <-]. exists 0%nat. repeat split. intros j n Hj. lia.
      * intros ([|i] & Hi & Hn & Hfirst).
        -- simpl in Hi. congruence.
        -- exfalso. apply (Hfirst 0%nat t2); [lia|reflexivity|reflexivity].
    + rewrite bool_decide_eq_false_2 by exact Hne.
      exists r. split; [exact Hr|]. intros p. rewrite IH. split.
      * intros (i & Hi & Hn & Hfirst). exists (S i). repeat split; try assumption.
        intros [|j] n' Hj Hl; simpl in Hl; [congruence|].
        eapply Hfirst; [|exact Hl]. lia.
      * intros ([|i] & Hi & Hn & Hfirst); simpl in Hi, Hn; [congruence|].
        exists i. repeat split; try assumption.
        intros j n' Hj Hl. apply (Hfirst (S j) n'); [lia|exact Hl].
Qed.

Lemma lev_scan_sound t2 th ps :
  forall m b p,
    lev_scan nfkd t2 th ps m b = Ok (Some p) ->
    (p ∈ ps /\
     exists c, cer_of nfkd t2 p = Ok c /\
               (ltb c f0_01 = true \/ ltb c th = true)) \/
    (b = Some p /\ ltb m th = true).
Proof.
  induction ps as [|q ps IH]; intros m b p H.
  - simpl in H. right. destruct (ltb m th); [|discriminate].
    injection H as ->. auto.
  - rewrite lev_scan_cons in H.
    destruct (cer_of nfkd t2 q) as [c|] eqn:Hc; [|discriminate]. simpl in H.
    destruct (ltb c f0_01) eqn:H01.
    + injection H as <-. left. split; [left|]. eauto.
    + destruct (ltb c m) eqn:Hcm.
      * destruct (IH _ _ _ H) as [(Hin & Hp)|([= <-] & Hlt)].
        -- left. split; [right; exact Hin|exact Hp].
        -- left. split; [left|]. eauto.
      * destruct (IH _ _ _ H) as [(Hin & Hp)|Hb]; [|right; exact Hb].
        left. split; [right; exact Hin|exact Hp].
Qed.

Lemma lev_scan_threshold_mono t2 th th' ps :
  leb th th' = true ->
  forall m b p,
    lev_scan nfkd t2 th ps m b = Ok (Some p) ->
    lev_scan nfkd t2 th' ps m b = Ok (Some p).
Proof.
  intros Hle. induction ps as [|q ps IH]; intros m b p H.
  - simpl in *. destruct (ltb m th) eqn:Hm; [|discriminate].
    rewrite (ltb_leb_trans _ _ _ Hm Hle). exact H.
  - rewrite lev_scan_cons in *.
    destruct (cer_of nfkd t2 q) as [c|]; [|discriminate]. simpl in *.
    destruct (ltb c f0_01); [exact H|].
    destruct (ltb c m); apply IH; exact H.
Qed.

End MatcherMore.

(** X10. Exact mode of [search_by_title]: when the titles decode, the
    search returns, and it returns the first publication whose normalised
    title is the normalised target, or [None] when there is none. *)
Theorem search_by_title_exact
    (nfkd : list Z -> list Z) (self : DBLPResult) (target : string)
    (t2 : list Z) (ns : list (list Z)) (th : spec_float) :
  normalize nfkd target = Ok t2 ->
  Forall2 (fun p n => normalize nfkd (title p) = Ok n) (publications self) ns ->
  exists r,
    search_by_title nfkd self target false th = Ok r /\
    forall p,
      r = Some p <->
      exists i,
        publications self !! i = Some p /\ ns !! i = Some t2 /\
        forall j n, (j < i)%nat -> ns !! j = Some n -> n <> t2.
Proof.
  intros Ht2 Hns. unfold search_by_title. rewrite Ht2. simpl.
  apply exact_scan_spec. exact Hns.
Qed.

Lemma search_by_title_exact_witness :
  exists r,
    search_by_title nfkd_latin1
      (result_of_titles ["Deep Learnin"; "DEEP learning!"; "Deep Learning"]%string)
      "Deep Learning" false f0_2 = Ok r /\
    forall p,
      r = Some p <->
      exists i,
        publications
          (result_of_titles
             ["Deep Learnin"; "DEEP learning!"; "Deep Learning"]%string)
          !! i = Some p /\
        [codes "deeplearnin"; codes "deeplearning"; codes "deeplearning"] !! i
        = Some (codes "deeplearning") /\
        forall j n, (j < i)%nat ->
          [codes "deeplearnin"; codes "deeplearning"; codes "deeplearning"] !! j
          = Some n -> n <> codes "deeplearning".
Proof.
  apply (search_by_title_exact nfkd_latin1 _ "Deep Learning").
  - vm_compute. reflexivity.
  - repeat constructor; vm_compute; reflexivity.
Defined.

(** X11. Whatever the approximate search returns is one of the
    publications, and its rate is below 0.01 or below the threshold. *)
Theorem search_by_title_approximate_sound
    (nfkd : list Z -> list Z) (self : DBLPResult) (target : string)
    (th : spec_float) (p : Publication) :
  search_by_title nfkd self target true th = Ok (Some p) ->
  exists t2 c,
    normalize nfkd target = Ok t2 /\
    p ∈ publications self /\
    cer_of nfkd t2 p = Ok c /\
    (ltb c f0_01 = true \/ ltb c th = true).
Proof.
  unfold search_by_title.
  destruct (normalize nfkd target) as [t2|]; [|discriminate]. simpl.
  intros H. exists t2.
  destruct (lev_scan_sound nfkd t2 th _ _ _ _ H) as [(Hin & c & Hc & Hlt)|[Hb _]];
    [|discriminate].
  exists c. auto.
Qed.

Lemma search_by_title_approximate_sound_witness :
  let self := result_of_titles
                ["Deep Learning Method"; "Deep Learning Methodes"]%string in
  let p := Publication_init "" None "Deep Learning Methodes" [] in
  search_by_title nfkd_latin1 self "Deep Learning Methods" true f0_2
  = Ok (Some p) /\
  exists t2 c,
    normalize nfkd_latin1 "Deep Learning Methods" = Ok t2 /\
    p ∈ publications self /\
    cer_of nfkd_latin1 t2 p = Ok c /\
    (ltb c f0_01 = true \/ ltb c f0_2 = true).
Proof.
  assert (H : search_by_title nfkd_latin1
                (result_of_titles
                   ["Deep Learning Method"; "Deep Learning Methodes"]%string)
                "Deep Learning Methods" true f0_2
              = Ok (Some (Publication_init "" None "Deep Learning Methodes" [])))
    by (vm_compute; reflexivity).
  split; [exact H|].
  apply (search_by_title_approximate_sound _ _ _ _ _ H).
Defined.

(** X12. What exact mode accepts, approximate mode accepts for every
    positive threshold: two titles with the same non-empty normalised form
    have rate 0.0 and [_is_target] reports a match. *)
Theorem is_target_approximate_of_exact
    (nfkd : list Z -> list Z) (t1 t2 : string) (n : list Z)
    (th : spec_float) :
  normalize nfkd t1 = Ok n ->
  normalize nfkd t2 = Ok n ->
  n <> [] -> len n < 2 ^ 53 ->
  ltb f0 th = true ->
  _is_target nfkd t1 t2 false th = Ok true /\
  _is_target nfkd t1 t2 true th = Ok true.
Proof.
  intros H1 H2 Hne Hb Hth. unfold _is_target. rewrite H1, H2. simpl.
  rewrite bool_decide_eq_true_2 by reflexivity.
  rewrite CER_same by assumption. simpl. rewrite Hth. auto.
Qed.

Lemma is_target_approximate_of_exact_witness :
  _is_target nfkd_latin1 "Deep Learning" "deep-learning" false f0_2 = Ok true /\
  _is_target nfkd_latin1 "Deep Learning" "deep-learning" true f0_2 = Ok true.
Proof.
  apply (is_target_approximate_of_exact nfkd_latin1 _ _ (codes "deeplearning")).
  - vm_compute. reflexivity.
  - vm_compute. reflexivity.
  - discriminate.
  - vm_compute. reflexivity.
  - vm_compute. reflexivity.
Defined.

(** X13. With the threshold 0.0 the approximate [_is_target] never reports
    a match, not even for identical titles: the comparison is strict and
    [_is_target] has no early acceptance. *)
Theorem is_target_threshold_zero
    (nfkd : list Z -> list Z) (t1 t2 : string) (r : bool) :
  _is_target nfkd t1 t2 true f0 = Ok r -> r = false.
Proof.
  unfold _is_target.
  destruct (normalize nfkd t1) as [n1|]; [|discriminate].
  destruct (normalize nfkd t2) as [n2|]; [|discriminate]. simpl.
  destruct (CER n1 n2) as [c|] eqn:Hc; [|discriminate]. simpl.
  intros [= <-]. apply not_below_zero. eapply CER_nonneg. exact Hc.
Qed.

Lemma is_target_threshold_zero_witness :
  _is_target nfkd_latin1 "Deep Learning" "Deep Learning" true f0 = Ok false /\
  false = false.
Proof.
  assert (H : _is_target nfkd_latin1 "Deep Learning" "Deep Learning" true f0
              = Ok false) by (vm_compute; reflexivity).
  split; [exact H|]. apply (is_target_threshold_zero _ _ _ _ H).
Defined.

(** X14. Raising the threshold never loses a match, and never changes
    which publication the approximate search returns. *)
Theorem threshold_monotone
    (nfkd : list Z -> list Z) (self : DBLPResult) (target t1 t2 : string)
    (th th' : spec_float) (p : Publication) :
  leb th th' = true ->
  (search_by_title nfkd self target true th = Ok (Some p) ->
   search_by_title nfkd self target true th' = Ok (Some p)) /\
  (_is_target nfkd t1 t2 true th = Ok true ->
   _is_target nfkd t1 t2 true th' = Ok true).
Proof.
  intros Hle. split.
  - unfold search_by_title.
    destruct (normalize nfkd target) as [n|]; [|discriminate]. simpl.
    apply lev_scan_threshold_mono. exact Hle.
  - unfold _is_target.
    destruct (normalize nfkd t1) as [n1|]; [|discriminate].
    destruct (normalize nfkd t2) as [n2|]; [|discriminate]. simpl.
    destruct (CER n1 n2) as [c|]; [|discriminate]. simpl.
    intros [= H]. rewrite (ltb_leb_trans _ _ _ H Hle). reflexivity.
Qed.

Lemma threshold_monotone_witness :
  let self := result_of_titles
                ["Deep Learning Method"; "Deep Learning Methodes"]%string in
  let p := Publication_init "" None "Deep Learning Methodes" [] in
  leb f0_2 f1 = true /\
  (search_by_title nfkd_latin1 self "Deep Learning Methods" true f0_2
   = Ok (Some p) ->
   search_by_title nfkd_latin1 self "Deep Learning Methods" true f1
   = Ok (Some p)) /\
  (_is_target nfkd_latin1 "Neural Networks" "Neural Netwroks" true f0_2 = Ok true ->
   _is_target nfkd_latin1 "Neural Networks" "Neural Netwroks" true f1 = Ok true).
Proof.
  assert (H : leb f0_2 f1 = true) by (vm_compute; reflexivity).
  split; [exact H|].
  apply (threshold_monotone nfkd_latin1 _ _ _ _ _ _ _ H).
Defined.

(** ** The query string *)

Module StrFacts.
Import Str.

Lemma append_cons c w x : (String c w ++ x)%string = String c (w ++ x).
Proof. reflexivity. Qed.

Lemma append_nil x : (EmptyString ++ x)%string = x.
Proof. reflexivity. Qed.

Lemma append_assoc (a b c : string) : ((a ++ b) ++ c = a ++ (b ++ c))%string.
Proof.
  induction a as [|x a IH]; [reflexivity|].
  rewrite !append_cons, IH. reflexivity.
Qed.

Lemma append_nil_r (a : string) : (a ++ "")%string = a.
Proof.
  induction a as [|x a IH]; [reflexivity|].
  rewrite append_cons, IH. reflexivity.
Qed.

Lemma no_space_nil : no_space EmptyString.
Proof. intros c []. Qed.

Lemma no_space_cons c s :
  no_space (String c s) <-> is_space c = false /\ no_space s.
Proof.
  unfold no_space. simpl. split.
  - intros H. split; [apply H; auto|]. intros c' Hc'. apply H. auto.
  - intros [Hc Hs] c' [<-|Hc']; [exact Hc|apply Hs, Hc'].
Qed.

Lemma no_space_append a b :
  no_space a -> no_space b -> no_space (a ++ b)%string.
Proof.
  intros Ha Hb. induction a as [|c a IH]; [exact Hb|].
  rewrite append_cons. apply no_space_cons in Ha as [Hc Ha].
  apply no_space_cons. split; [exact Hc|apply IH, Ha].
Qed.

Lemma split_words s :
  Forall (fun w => w <> EmptyString /\ no_space w) (split s).
Proof.
  induction s as [|c s IH]; [constructor|]. simpl.
  destruct (is_space c) eqn:Hc; [exact IH|].
  destruct (starts_word s).
  - destruct (split s) as [|w ws]; [repeat constructor|].
    + discriminate.
    + apply no_space_cons. split; [exact Hc|apply no_space_nil].
    + apply Forall_cons in IH as [[_ Hw] Hws]. constructor; [|exact Hws].
      split; [discriminate|]. apply no_space_cons. auto.
  - constructor; [|exact IH]. split; [discriminate|].
    apply no_space_cons. split; [exact Hc|apply no_space_nil].
Qed.

Lemma join_no_space sep l :
  no_space sep -> Forall no_space l -> no_space (join sep l).
Proof.
  intros Hsep. induction 1 as [|w l Hw Hl IH]; [apply no_space_nil|].
  unfold join in *. simpl. destruct l as [|w' l]; [exact Hw|].
  apply no_space_append; [exact Hw|]. apply no_space_append; assumption.
Qed.

Lemma split_no_space s :
  s <> EmptyString -> no_space s -> split s = [s].
Proof.
  induction s as [|c s IH]; [congruence|]. intros _ Hs.
  apply no_space_cons in Hs as [Hc Hs]. simpl. rewrite Hc.
  destruct s as [|c' s]; [reflexivity|].
  assert (Hc' : is_space c' = false) by (apply no_space_cons in Hs; tauto).
  unfold starts_word. rewrite Hc'. simpl negb. cbv iota.
  rewrite IH; [reflexivity|discriminate|exact Hs].
Qed.

End StrFacts.

Module QueryFacts.
Import Str StrFacts.

Lemma prefix_cons a s1 b s2 :
  String.prefix (String a s1) (String b s2) =
  if ascii_dec a b then String.prefix s1 s2 else false.
Proof. reflexivity. Qed.

Lemma prefix_sep_append c w r :
  String.prefix "%20" (String c w) = false ->
  String.prefix "%20" (String c w ++ "%20" ++ r) = false.
Proof.
  rewrite !append_cons, !prefix_cons.
  destruct (ascii_dec "%" c) as [_|]; [|reflexivity].
  destruct w as [|c2 w].
  { intros _. rewrite append_nil, prefix_cons. reflexivity. }
  rewrite !append_cons, !prefix_cons.
  destruct (ascii_dec "2" c2) as [_|]; [|reflexivity].
  destruct w as [|c3 w].
  { intros _. rewrite append_nil, prefix_cons. reflexivity. }
  rewrite !append_cons, !prefix_cons.
  destruct (ascii_dec "0" c3); [|reflexivity].
  intros H. destruct w; discriminate H.
Qed.

Lemma prefix_append s r : String.prefix s (s ++ r) = true.
Proof.
  induction s as [|a s IH].
  - rewrite append_nil. destruct r; reflexivity.
  - rewrite append_cons, prefix_cons.
    destruct (ascii_dec a a); [exact IH|congruence].
Qed.

Lemma split_on_cons sep c s :
  split_on sep (String c s) 0 =
  if String.prefix sep (String c s)
  then EmptyString :: split_on sep s (String.length sep - 1)
  else match split_on sep s 0 with
       | w :: ws => String c w :: ws
       | [] => [String c EmptyString]
       end.
Proof. reflexivity. Qed.

Lemma split_on_piece w r :
  occurs "%20" w = false ->
  split_on "%20" (w ++ "%20" ++ r) 0 = w :: split_on "%20" r 0.
Proof.
  induction w as [|c w IH]; intros Hw.
  - rewrite append_nil.
    pose proof (prefix_append "%20" r) as Hp.
    change ("%20" ++ r)%string with (String "%" (String "2" (String "0" r))) in *.
    rewrite split_on_cons, Hp. reflexivity.
  - cbn [occurs] in Hw. apply orb_false_iff in Hw as [Hp Hw].
    pose proof (prefix_sep_append c w r Hp) as Hp'.
    rewrite (append_cons c w) in Hp'. rewrite (append_cons c w).
    rewrite split_on_cons, Hp', (IH Hw). reflexivity.
Qed.

Lemma split_on_last w :
  occurs "%20" w = false -> split_on "%20" w 0 = [w].
Proof.
  induction w as [|c w IH]; intros Hw; [reflexivity|].
  cbn [occurs] in Hw. apply orb_false_iff in Hw as [Hp Hw].
  rewrite split_on_cons, Hp, (IH Hw). reflexivity.
Qed.

Lemma split_on_join ws :
  ws <> [] ->
  Forall (fun w => occurs "%20" w = false) ws ->
  split_on "%20" (join "%20" ws) 0 = ws.
Proof.
  intros Hne H. induction H as [|w ws Hw Hws IH]; [congruence|].
  destruct ws as [|w2 ws]; [apply split_on_last, Hw|].
  change (join "%20" (w :: w2 :: ws))
    with (w ++ "%20" ++ join "%20" (w2 :: ws))%string.
  rewrite split_on_piece by exact Hw. rewrite IH by discriminate. reflexivity.
Qed.

End QueryFacts.

(** X15. The query that [DBLPSearch] stores has no whitespace left, and
    building the object again from the stored query changes nothing. *)
Theorem DBLPSearch_init_no_space (query : string) :
  Str.no_space (DBLPSearch_init query) /\
  DBLPSearch_init (DBLPSearch_init query) = DBLPSearch_init query.
Proof.
  assert (Hns : Str.no_space (DBLPSearch_init query)).
  { unfold DBLPSearch_init. apply StrFacts.join_no_space.
    - intros c Hc. simpl in Hc. destruct Hc as [<-|[<-|[<-|[]]]]; reflexivity.
    - eapply Forall_impl; [apply StrFacts.split_words|]. intros w [_ Hw]. exact Hw. }
  split; [exact Hns|].
  destruct (string_dec (DBLPSearch_init query) EmptyString) as [E|E].
  - rewrite E. reflexivity.
  - unfold DBLPSearch_init at 1.
    rewrite (StrFacts.split_no_space _ E Hns). reflexivity.
Qed.

(** X16. The query text that [search] reports, [' '.join(self.query.split
    ('%20'))], is the words of the query given to [DBLPSearch], joined by
    single spaces, when no word contains [%20]. *)
Theorem query_text_round_trip (query : string) :
  Forall (fun w => Str.occurs "%20" w = false) (Str.split query) ->
  query_text (DBLPSearch_init query) = Str.join " " (Str.split query).
Proof.
  intros H. unfold query_text, DBLPSearch_init.
  destruct (Str.split query) as [|w ws] eqn:E; [reflexivity|].
  rewrite QueryFacts.split_on_join; [reflexivity|discriminate|exact H].
Qed.

Lemma query_text_round_trip_witness :
  Forall (fun w => Str.occurs "%20" w = false)
    (Str.split "  Donald   E. Knuth ") /\
  query_text (DBLPSearch_init "  Donald   E. Knuth ")
  = Str.join " " (Str.split "  Donald   E. Knuth ").
Proof.
  assert (H : Forall (fun w => Str.occurs "%20" w = false)
                (Str.split "  Donald   E. Knuth "))
    by (vm_compute; repeat constructor).
  split; [exact H|]. apply (query_text_round_trip _ H).
Defined.

(** ** The citation and the tag filter *)

Module ReprFacts.

Import StrFacts.

Lemma fold_authors (f : nat -> string) (l : list string) (k : nat)
    (acc : string) :
  (forall i, (i < length l)%nat -> f (k + i)%nat = nth i l ""%string) ->
  fold_left (fun acc i => acc ++ (f i ++ ", "))%string (seq k (length l)) acc
  = (acc ++ with_commas l)%string.
Proof.
  revert k acc. induction l as [|a l IH]; intros k acc Hf.
  - cbn [length seq fold_left with_commas]. rewrite append_nil_r. reflexivity.
  - cbn [length seq fold_left with_commas].
    rewrite IH.
    + rewrite <- (Nat.add_0_r k) at 1. rewrite (Hf 0%nat) by (simpl; lia).
      cbn [nth]. rewrite !append_assoc. reflexivity.
    + intros i Hi. replace (S k + i)%nat with (k + S i)%nat by lia.
      rewrite Hf by (simpl; lia). reflexivity.
Qed.

Lemma join_snoc (l : list string) (z : string) :
  Str.join ", " (l ++ [z]) = (with_commas l ++ z)%string.
Proof.
  induction l as [|a l IH]; [reflexivity|].
  cbn [with_commas]. rewrite !append_assoc, <- IH.
  unfold Str.join. destruct l; reflexivity.
Qed.

Lemma authors_string_join (authors : list string) :
  authors <> [] ->
  authors_string authors = (Str.join ", " authors ++ ".")%string.
Proof.
  intros Hne.
  destruct (exists_last Hne) as (l & z & ->).
  unfold authors_string. rewrite length_app. cbn [length].
  replace (0 <? length l + 1)%nat with true
    by (symmetry; apply Nat.ltb_lt; lia).
  replace (length l + 1 - 1)%nat with (length l) by lia.
  rewrite (fold_authors (fun i => nth i (l ++ [z]) ""%string) l 0 ""%string).
  - rewrite append_nil, (nth_middle l [] z ""%string), join_snoc, append_assoc.
    reflexivity.
  - intros i Hi. cbn [Nat.add]. apply app_nth1. exact Hi.
Qed.

End ReprFacts.

(** X17. The citation of a publication is its title, then, if there are
    authors, a space and the authors joined by [", "] with a final full
    stop, then the journal, or else the book title, after a space and
    with a full stop. *)
Theorem repr_format (self : Publication) :
  repr self =
  (title self ++
   (match authors self with
    | [] => ""
    | _ :: _ => " " ++ Str.join ", " (authors self) ++ "."
    end ++
    match journal self, booktitle self with
    | Some j, _ => " " ++ j ++ "."
    | None, Some b => " " ++ b ++ "."
    | None, None => ""
    end))%string.
Proof.
  unfold repr.
  assert (Hc : (if string_dec (authors_string (authors self)) ""
                then title self
                else (title self ++ (" " ++ authors_string (authors self)))%string)
               = (title self ++
                  match authors self with
                  | [] => ""
                  | _ :: _ => " " ++ Str.join ", " (authors self) ++ "."
                  end)%string).
  { destruct (authors self) as [|a l] eqn:E.
    - simpl. rewrite StrFacts.append_nil_r. reflexivity.
    - rewrite ReprFacts.authors_string_join by discriminate.
      destruct (string_dec _ _) as [Heq|_]; [|reflexivity].
      exfalso. destruct (Str.join ", " (a :: l)); discriminate Heq. }
  rewrite Hc.
  destruct (journal self) as [j|]; [|destruct (booktitle self) as [b|]];
    rewrite ?StrFacts.append_assoc, ?StrFacts.append_nil_r; reflexivity.
Qed.

Module TagFacts.
Import Tags StrFacts.

Lemma without_cons a c s :
  without a (String c s) <-> c <> a /\ without a s.
Proof.
  unfold without. simpl. split.
  - intros H. split; [apply H; auto|]. intros c' Hc'. apply H. auto.
  - intros [Hc Hs] c' [<-|Hc']; [exact Hc|apply Hs, Hc'].
Qed.

Lemma strip_without_lt s r :
  without lt s -> strip (s ++ r) false = (s ++ strip r false)%string.
Proof.
  induction s as [|c s IH]; intros Hs; [reflexivity|].
  apply without_cons in Hs as [Hc Hs].
  rewrite !append_cons. cbn [strip].
  apply Ascii.eqb_neq in Hc. rewrite Hc. cbn [andb]. rewrite IH by exact Hs.
  reflexivity.
Qed.

Lemma strip_inside n r :
  without gt n -> strip (n ++ String gt r) true = strip r false.
Proof.
  induction n as [|c n IH]; intros Hn.
  - rewrite append_nil. cbn [strip]. rewrite Ascii.eqb_refl. reflexivity.
  - apply without_cons in Hn as [Hc Hn]. rewrite append_cons. cbn [strip].
    apply Ascii.eqb_neq in Hc. rewrite Hc. apply IH, Hn.
Qed.

Lemma closes_tag n r :
  without gt n -> without newline n -> closes (n ++ String gt r) = true.
Proof.
  induction n as [|c n IH]; intros Hg Hn.
  - rewrite append_nil. cbn [closes]. rewrite Ascii.eqb_refl. reflexivity.
  - apply without_cons in Hg as [Hc Hg]. apply without_cons in Hn as [Hc' Hn].
    rewrite append_cons. cbn [closes].
    apply Ascii.eqb_neq in Hc, Hc'. rewrite Hc, Hc'. apply IH; assumption.
Qed.

Lemma strip_tag n r :
  without gt n -> without newline n ->
  strip (String lt (n ++ String gt r)) false = strip r false.
Proof.
  intros Hg Hn. cbn [strip]. rewrite Ascii.eqb_refl, closes_tag by assumption.
  cbn [andb]. apply strip_inside, Hg.
Qed.

Lemma closes_strip s : closes s = false -> closes (strip s false) = false.
Proof.
  induction s as [|c s IH]; [reflexivity|]. cbn [closes strip].
  destruct (Ascii.eqb c gt) eqn:Hg; [discriminate|].
  destruct (Ascii.eqb c newline) eqn:Hn.
  - intros _. destruct (Ascii.eqb c lt && closes s) eqn:E.
    + apply andb_true_iff in E as [E _].
      apply Ascii.eqb_eq in E, Hn. unfold lt, newline in *. congruence.
    + cbn [closes]. rewrite Hg, Hn. reflexivity.
  - intros Hs. rewrite Hs, andb_false_r. cbn [closes]. rewrite Hg, Hn.
    apply IH, Hs.
Qed.

Lemma strip_strip s :
  strip (strip s false) false = strip s false /\
  strip (strip s true) false = strip s true.
Proof.
  induction s as [|c s [IH1 IH2]]; [split; reflexivity|]. split.
  - cbn [strip]. destruct (Ascii.eqb c lt && closes s) eqn:E; [exact IH2|].
    cbn [strip].
    assert (E' : Ascii.eqb c lt && closes (strip s false) = false).
    { apply andb_false_iff in E as [E|E]; [rewrite E; reflexivity|].
      rewrite (closes_strip s E). apply andb_false_r. }
    rewrite E', IH1. reflexivity.
  - cbn [strip]. destruct (Ascii.eqb c gt); assumption.
Qed.

End TagFacts.

(** X18. [_strip_tags] leaves a text without [<] as it is. *)
Theorem strip_tags_plain_text (html : string) :
  Tags.without Tags.lt html -> _strip_tags html = html.
Proof.
  intros H. unfold _strip_tags.
  rewrite <- (StrFacts.append_nil_r html) at 1.
  rewrite TagFacts.strip_without_lt by exact H.
  apply StrFacts.append_nil_r.
Qed.

Lemma strip_tags_plain_text_witness :
  Tags.without Tags.lt "Deep Learning > 2 & more" /\
  _strip_tags "Deep Learning > 2 & more" = "Deep Learning > 2 & more"%string.
Proof.
  assert (H : Tags.without Tags.lt "Deep Learning > 2 & more").
  { intros c Hc. simpl in Hc.
    repeat (destruct Hc as [<-|Hc]; [discriminate|]). destruct Hc. }
  split; [exact H|]. apply (strip_tags_plain_text _ H).
Defined.

(** X19. Stripping the tags twice gives what stripping once gives: the
    result holds no tag that the pattern would match. *)
Theorem strip_tags_idempotent (html : string) :
  _strip_tags (_strip_tags html) = _strip_tags html.
Proof. apply TagFacts.strip_strip. Qed.

(** X20. The markup of an element, [<a>text<b>] with tags on one line and
    a text without [<], is reduced to its text: this is how [_get_bibtex]
    reads a title or an author from [toxml()]. *)
Theorem strip_tags_element (a b text : string) :
  Tags.without Tags.gt a -> Tags.without Tags.newline a ->
  Tags.without Tags.gt b -> Tags.without Tags.newline b ->
  Tags.without Tags.lt text ->
  _strip_tags ("<" ++ a ++ ">" ++ text ++ "<" ++ b ++ ">") = text.
Proof.
  intros Ha Ha' Hb Hb' Ht. unfold _strip_tags.
  change ("<" ++ a ++ ">" ++ text ++ "<" ++ b ++ ">")%string
    with (String Tags.lt
            (a ++ String Tags.gt
                    (text ++ String Tags.lt (b ++ String Tags.gt ""))))%string.
  rewrite TagFacts.strip_tag by assumption.
  rewrite TagFacts.strip_without_lt by exact Ht.
  rewrite TagFacts.strip_tag by assumption.
  apply StrFacts.append_nil_r.
Qed.

Lemma strip_tags_element_witness :
  _strip_tags ("<" ++ "title" ++ ">" ++ "Deep Learning." ++ "<" ++ "/title" ++ ">")
  = "Deep Learning."%string.
Proof.
  apply (strip_tags_element "title" "/title" "Deep Learning.");
    intros c Hc; simpl in Hc;
    repeat (destruct Hc as [<-|Hc]; [discriminate|]); destruct Hc.
Defined.

(** ** Completeness of the approximate search *)

Lemma nlt_ltb_trans m c th :
  nonneg m = true -> nonneg c = true ->
  ltb c m = false -> ltb c th = true -> ltb m th = true.
Proof. intros Hm Hc H1 H2. cmp. Qed.

Lemma lev_scan_complete (nfkd : list Z -> list Z) t2 th ps cs :
  Forall2 (fun p c => cer_of nfkd t2 p = Ok c) ps cs ->
  forall m b,
    nonneg m = true ->
    (ltb m th = true -> is_Some b) ->
    (ltb m th = true \/ exists c, c ∈ cs /\ ltb c th = true) ->
    exists p, lev_scan nfkd t2 th ps m b = Ok (Some p).
Proof.
  induction 1 as [|q c ps cs Hc _ IH]; intros m b Hm Hb Hex.
  - simpl. destruct Hex as [Hlt|(c & Hin & _)]; [|inversion Hin].
    rewrite Hlt. destruct (Hb Hlt) as [p ->]. eauto.
  - rewrite lev_scan_cons, Hc. simpl.
    pose proof (cer_of_nonneg nfkd t2 q c Hc) as Hnn.
    destruct (ltb c f0_01); [eauto|].
    destruct (ltb c m) eqn:Hcm.
    + apply IH; [exact Hnn|eauto|].
      destruct Hex as [Hlt|(c' & Hin & Hlt)].
      * left. eapply ltb_trans; eassumption.
      * apply elem_of_cons in Hin as [->|Hin]; [left; exact Hlt|].
        right. eauto.
    + apply IH; [exact Hm|exact Hb|].
      destruct Hex as [Hlt|(c' & Hin & Hlt)]; [left; exact Hlt|].
      apply elem_of_cons in Hin as [->|Hin]; [|right; eauto].
      left. eapply nlt_ltb_trans; eassumption.
Qed.

(** X21. When every publication has a rate and one of the rates is below
    a threshold of at most 1.0, the approximate search returns a
    publication. *)
Theorem search_by_title_approximate_complete
    (nfkd : list Z -> list Z) (self : DBLPResult) (target : string)
    (t2 : list Z) (cs : list spec_float) (th c : spec_float) :
  normalize nfkd target = Ok t2 ->
  Forall2 (fun p c => cer_of nfkd t2 p = Ok c) (publications self) cs ->
  leb th f1 = true ->
  c ∈ cs -> ltb c th = true ->
  exists p, search_by_title nfkd self target true th = Ok (Some p).
Proof.
  intros Ht2 Hcs Hth Hin Hlt. unfold search_by_title. rewrite Ht2. simpl.
  eapply lev_scan_complete; [exact Hcs|reflexivity| |right; eauto].
  intros H. rewrite (f100_not_below th Hth) in H. discriminate.
Qed.

Lemma search_by_title_approximate_complete_witness :
  exists p,
    search_by_title nfkd_latin1
      (result_of_titles ["Unrelated Title"; "Deep Learning Method"]%string)
      "Deep Learning Methods" true f0_2 = Ok (Some p).
Proof.
  apply (search_by_title_approximate_complete nfkd_latin1 _
           "Deep Learning Methods" (codes "deeplearningmethods")
           [S754_finite false 5146971002709138 (-52);
            S754_finite false 8006399337547548 (-57)]
           f0_2 (S754_finite false 8006399337547548 (-57))).
  - vm_compute. reflexivity.
  - repeat constructor; vm_compute; reflexivity.
  - vm_compute. reflexivity.
  - right. left.
  - vm_compute. reflexivity.
Defined.

